(** * metrics/resources/plugins.py: the plugin and plugin-update resources

    A shallow embedding of [src/metrics/resources/plugins.py]: the
    response normaliser [_cleanup], the query translation done at the top of
    [PluginsAPI.get], and the seven request handlers run against an explicit
    document store.  Python values are a tagged tree, strings hold their
    text in UTF-8, dictionaries are association lists in insertion order,
    integers are [Z], and a handler
    returns an [outcome]: a response, an HTTP abort, or an exception that
    nobody catches. *)

From Stdlib Require Import ZArith List String Ascii Bool Lia.
Import ListNotations.

Local Open Scope string_scope.
Local Open Scope list_scope.
Local Open Scope Z_scope.

(** ** Python values *)

Module Py.

(** [uuid.UUID]: the 128-bit integer behind the identifier ([UUID.int]). *)
Record UUID : Type := mkUUID { uuid_int : Z }.

Definition UUID_wf (u : UUID) : Prop := 0 <= uuid_int u < 2 ^ 128.

(** [datetime.datetime], naive (no tzinfo), as the seven fields of the
    constructor. *)
Record datetime : Type := mkDatetime {
  year : Z; month : Z; day : Z;
  hour : Z; minute : Z; second : Z; microsecond : Z
}.

(** A finite [float]: the binary64 value [mant * 2 ^ expo]. *)
Record float64 : Type := mkFloat { mant : Z; expo : Z }.

(** The values [_cleanup] can meet.  A dictionary keeps its items in
    insertion order, with string keys as every document of the store has. *)
#[local] Unset Elimination Schemes.
Inductive pyval : Type :=
| PNone
| PBool (b : bool)
| PInt (n : Z)
| PFloat (x : float64)
| PStr (s : string)
| PList (items : list pyval)
| PDict (entries : list (string * pyval))
| PSet (members : list pyval)
| PUUID (u : UUID)
| PDatetime (t : datetime).
#[local] Set Elimination Schemes.

Definition dict : Type := list (string * pyval).

(** Structural induction that reaches the values nested in a list, a
    dictionary or a set. *)
Section Induction.
Variable P : pyval -> Prop.
Hypothesis HNone : P PNone.
Hypothesis HBool : forall b, P (PBool b).
Hypothesis HInt : forall n, P (PInt n).
Hypothesis HFloat : forall x, P (PFloat x).
Hypothesis HStr : forall s, P (PStr s).
Hypothesis HList : forall items, Forall P items -> P (PList items).
Hypothesis HDict :
  forall entries, Forall (fun kv => P (snd kv)) entries -> P (PDict entries).
Hypothesis HSet : forall members, Forall P members -> P (PSet members).
Hypothesis HUUID : forall u, P (PUUID u).
Hypothesis HDatetime : forall t, P (PDatetime t).

Fixpoint pyval_nested_ind (v : pyval) : P v :=
  match v with
  | PNone => HNone
  | PBool b => HBool b
  | PInt n => HInt n
  | PFloat x => HFloat x
  | PStr s => HStr s
  | PList items =>
      HList items
        ((fix all (l : list pyval) : Forall P l :=
            match l with
            | [] => Forall_nil P
            | x :: r => Forall_cons x (pyval_nested_ind x) (all r)
            end) items)
  | PDict entries =>
      HDict entries
        ((fix all (l : list (string * pyval))
            : Forall (fun kv => P (snd kv)) l :=
            match l with
            | [] => Forall_nil _
            | kv :: r =>
                Forall_cons kv (pyval_nested_ind (snd kv)) (all r)
            end) entries)
  | PSet members =>
      HSet members
        ((fix all (l : list pyval) : Forall P l :=
            match l with
            | [] => Forall_nil P
            | x :: r => Forall_cons x (pyval_nested_ind x) (all r)
            end) members)
  | PUUID u => HUUID u
  | PDatetime t => HDatetime t
  end.
End Induction.

(** [isinstance(obj, Iterable)]: strings, lists, dictionaries and sets. *)
Definition is_iterable (obj : pyval) : bool :=
  match obj with
  | PStr _ | PList _ | PDict _ | PSet _ => true
  | _ => false
  end.

(** [sum(1 for e in obj)]: a string yields its characters, a dictionary its
    keys.  [_cleanup] only asks whether the count is zero, and a string has
    no character exactly when it has no byte. *)
Definition count_elements (obj : pyval) : Z :=
  match obj with
  | PStr s => Z.of_nat (String.length s)
  | PList items => Z.of_nat (List.length items)
  | PDict entries => Z.of_nat (List.length entries)
  | PSet members => Z.of_nat (List.length members)
  | _ => 0
  end.

(** [d[key] = val]: an existing key keeps its place and takes the new value,
    a new key goes to the end. *)
Fixpoint dict_set {V : Type} (d : list (string * V)) (key : string) (val : V)
  : list (string * V) :=
  match d with
  | [] => [(key, val)]
  | (k, v) :: rest =>
      if String.eqb k key then (k, val) :: rest
      else (k, v) :: dict_set rest key val
  end.

(** [d.get(key)]: the value of the first item under the key. *)
Fixpoint dict_get {V : Type} (d : list (string * V)) (key : string)
  : option V :=
  match d with
  | [] => None
  | (k, v) :: rest => if String.eqb k key then Some v else dict_get rest key
  end.

(** [s.startswith('_')] and [s[1:]]. *)
Definition startswith_underscore (s : string) : bool :=
  match s with
  | String c _ => Ascii.eqb c "_"%char
  | EmptyString => false
  end.

Definition drop_first (s : string) : string :=
  match s with
  | String _ rest => rest
  | EmptyString => EmptyString
  end.

(** [s.lower()] on the ASCII letters; the bytes of a character outside
    ASCII stay.  None of the letters of "true" and "false" is the lower
    case of a character outside ASCII, so the tests of the query
    translation, the one use of [lower], read the same on this model. *)
Definition lower_char (c : ascii) : ascii :=
  let n := nat_of_ascii c in
  if (Nat.leb 65 n && Nat.leb n 90)%bool then ascii_of_nat (n + 32) else c.

Fixpoint lower (s : string) : string :=
  match s with
  | EmptyString => EmptyString
  | String c rest => String (lower_char c) (lower rest)
  end.

(** [sub in s] on strings. *)
Definition contains (sub s : string) : bool :=
  match String.index 0 sub s with
  | Some _ => true
  | None => false
  end.

(** *** [int(s)] on a string

    A [string] holds text in UTF-8, one [ascii] for each byte, as the
    string literals of this file do.  [int] reads the text by code point:
    it takes every decimal digit and every white space of Unicode for the
    ASCII one, then parses surrounding white space, a sign and decimal
    digits. *)

Definition byte (c : ascii) : Z := Z.of_nat (nat_of_ascii c).

Definition is_continuation (b : Z) : bool := ((128 <=? b) && (b <? 192))%bool.

(** The code points of UTF-8 text.  [None] for bytes that are not UTF-8:
    a stray or missing continuation byte, an overlong form, a surrogate, a
    value past U+10FFFF.  (The web framework decodes such bytes to U+FFFD,
    which [int] refuses.) *)
Fixpoint utf8_decode (s : list ascii) : option (list Z) :=
  match s with
  | [] => Some []
  | c0 :: rest =>
      let b0 := byte c0 in
      if b0 <? 128 then option_map (cons b0) (utf8_decode rest)
      else if b0 <? 224 then
        match rest with
        | c1 :: rest' =>
            let cp := (b0 - 192) * 64 + (byte c1 - 128) in
            if ((192 <=? b0) && is_continuation (byte c1)
                && (128 <=? cp))%bool
            then option_map (cons cp) (utf8_decode rest')
            else None
        | _ => None
        end
      else if b0 <? 240 then
        match rest with
        | c1 :: c2 :: rest' =>
            let cp := (b0 - 224) * 4096 + (byte c1 - 128) * 64
                      + (byte c2 - 128) in
            if (is_continuation (byte c1) && is_continuation (byte c2)
                && (2048 <=? cp)
                && negb ((55296 <=? cp) && (cp <=? 57343)))%bool
            then option_map (cons cp) (utf8_decode rest')
            else None
        | _ => None
        end
      else
        match rest with
        | c1 :: c2 :: c3 :: rest' =>
            let cp := (b0 - 240) * 262144 + (byte c1 - 128) * 4096
                      + (byte c2 - 128) * 64 + (byte c3 - 128) in
            if (is_continuation (byte c1) && is_continuation (byte c2)
                && is_continuation (byte c3)
                && (65536 <=? cp) && (cp <=? 1114111))%bool
            then option_map (cons cp) (utf8_decode rest')
            else None
        | _ => None
        end
  end.

(** The white space of Unicode past ASCII: U+0085, U+00A0, U+1680, U+2000
    to U+200A, U+2028, U+2029, U+202F, U+205F and U+3000. *)
Definition unicode_space (cp : Z) : bool :=
  (existsb (Z.eqb cp) [133; 160; 5760; 8232; 8233; 8239; 8287; 12288]
   || ((8192 <=? cp) && (cp <=? 8202)))%bool.

(** The decimal digits of Unicode (general category Nd) come in runs of
    ten, zero to nine: the first code point of every run, as of Unicode 14
    (the database of CPython 3.11; a later database adds runs). *)
Definition decimal_runs : list Z :=
  [48; 1632; 1776; 1984; 2406; 2534; 2662; 2790; 2918; 3046; 3174; 3302;
   3430; 3558; 3664; 3792; 3872; 4160; 4240; 6112; 6160; 6470; 6608; 6784;
   6800; 6992; 7088; 7232; 7248; 42528; 43216; 43264; 43472; 43504; 43600;
   44016; 65296; 66720; 68912; 69734; 69872; 69942; 70096; 70384; 70736;
   70864; 71248; 71360; 71472; 71904; 72016; 72784; 73040; 73120; 92768;
   92864; 93008; 120782; 120792; 120802; 120812; 120822; 123200; 123632;
   125264; 130032].

(** The value of a decimal digit, [None] for any other code point. *)
Definition to_decimal (cp : Z) : option Z :=
  match find (fun start => ((start <=? cp) && (cp <? start + 10))%bool)
             decimal_runs with
  | Some start => Some (cp - start)
  | None => None
  end.

(** What [int] makes of a code point before it parses: one below 127 stays,
    white space becomes a blank, a decimal digit its ASCII digit; [None]
    for any other code point, at which [int] gives up. *)
Definition ascii_of_code_point (cp : Z) : option ascii :=
  if cp <? 127 then Some (ascii_of_nat (Z.to_nat cp))
  else if unicode_space cp then Some " "%char
  else option_map (fun d => ascii_of_nat (Z.to_nat (48 + d))) (to_decimal cp).

Fixpoint to_ascii_decimal (cps : list Z) : option (list ascii) :=
  match cps with
  | [] => Some []
  | cp :: rest =>
      match ascii_of_code_point cp with
      | Some c => option_map (cons c) (to_ascii_decimal rest)
      | None => None
      end
  end.

(** The white space the parser skips: blank, tab, line feed, vertical tab,
    form feed, carriage return. *)
Definition is_space (c : ascii) : bool :=
  let n := nat_of_ascii c in
  (Nat.eqb n 32 || (Nat.leb 9 n && Nat.leb n 13))%bool.

Fixpoint lstrip (s : list ascii) : list ascii :=
  match s with
  | c :: rest => if is_space c then lstrip rest else s
  | [] => []
  end.

Definition strip (s : list ascii) : list ascii :=
  rev (lstrip (rev (lstrip s))).

Definition digit_value (c : ascii) : option Z :=
  let n := nat_of_ascii c in
  if (Nat.leb 48 n && Nat.leb n 57)%bool then Some (Z.of_nat n - 48)
  else None.

(** Decimal digits, single underscores allowed between two digits. *)
Fixpoint parse_digits (s : list ascii) (acc : Z) (after_digit : bool)
  : option Z :=
  match s with
  | [] => if after_digit then Some acc else None
  | c :: rest =>
      if Ascii.eqb c "_"%char then
        if after_digit then parse_digits rest acc false else None
      else
        match digit_value c with
        | Some d => parse_digits rest (10 * acc + d) true
        | None => None
        end
  end.

(** The parser on the ASCII form: surrounding white space, a sign, decimal
    digits. *)
Definition int_of_ascii (s : list ascii) : option Z :=
  match strip s with
  | c :: rest =>
      if Ascii.eqb c "-"%char then option_map Z.opp (parse_digits rest 0 false)
      else if Ascii.eqb c "+"%char then parse_digits rest 0 false
      else parse_digits (c :: rest) 0 false
  | [] => None
  end.

(** [int(s)].  [None] stands for the [ValueError] of a string that is not
    an integer literal. *)
Definition int_of_str (s : string) : option Z :=
  match utf8_decode (list_ascii_of_string s) with
  | Some cps =>
      match to_ascii_decimal cps with
      | Some text => int_of_ascii text
      | None => None
      end
  | None => None
  end.

(** *** [str(uuid)] *)

Definition hex_digit (d : Z) : ascii :=
  if d <? 10 then ascii_of_nat (Z.to_nat (48 + d))
  else ascii_of_nat (Z.to_nat (87 + d)).

Fixpoint hex_digits (fuel : nat) (n : Z) (acc : list ascii) : list ascii :=
  match fuel with
  | O => acc
  | S fuel' =>
      if n <? 16 then hex_digit n :: acc
      else hex_digits fuel' (n / 16) (hex_digit (n mod 16) :: acc)
  end.

(** ['%x' % n] for [n >= 0]: the fuel covers every bit of [n]. *)
Definition format_x (n : Z) : list ascii :=
  hex_digits (S (Z.to_nat (Z.log2 n))) n [].

(** ['%032x' % n]: left-padded with zeros to at least 32 characters. *)
Definition format_032x (n : Z) : list ascii :=
  let digits := format_x n in
  repeat "0"%char (32 - List.length digits) ++ digits.

(** [l[a:b]] and [l[a:]] for [0 <= a <= b]. *)
Definition slice (a b : nat) (l : list ascii) : list ascii :=
  firstn (b - a) (skipn a l).

(** [UUID.__str__]: the 32 hexadecimal digits in groups of 8-4-4-4-12. *)
Definition str_UUID (u : UUID) : string :=
  let hex := format_032x (uuid_int u) in
  string_of_list_ascii
    (slice 0 8 hex ++ "-"%char :: slice 8 12 hex ++ "-"%char ::
     slice 12 16 hex ++ "-"%char :: slice 16 20 hex ++ "-"%char ::
     skipn 20 hex).

(** *** [datetime] arithmetic *)

Record timedelta : Type := mkTimedelta {
  days : Z; seconds : Z; microseconds : Z
}.

Definition _is_leap (y : Z) : bool :=
  ((y mod 4 =? 0) && (negb (y mod 100 =? 0) || (y mod 400 =? 0)))%bool.

Definition _days_before_year (y : Z) : Z :=
  let y := y - 1 in
  y * 365 + y / 4 - y / 100 + y / 400.

Definition _DAYS_BEFORE_MONTH : list Z :=
  [-1; 0; 31; 59; 90; 120; 151; 181; 212; 243; 273; 304; 334].

Definition _days_before_month (y m : Z) : Z :=
  nth (Z.to_nat m) _DAYS_BEFORE_MONTH 0
  + (if ((2 <? m) && _is_leap y)%bool then 1 else 0).

Definition _days_in_month (y m : Z) : Z :=
  if ((m =? 2) && _is_leap y)%bool then 29
  else nth (Z.to_nat m) [-1; 31; 28; 31; 30; 31; 30; 31; 31; 30; 31; 30; 31] 0.

Definition toordinal (t : datetime) : Z :=
  _days_before_year (year t) + _days_before_month (year t) (month t) + day t.

(** What the [datetime] constructor accepts. *)
Definition datetime_wf (t : datetime) : Prop :=
  1 <= year t <= 9999 /\ 1 <= month t <= 12 /\
  1 <= day t <= _days_in_month (year t) (month t) /\
  0 <= hour t <= 23 /\ 0 <= minute t <= 59 /\ 0 <= second t <= 59 /\
  0 <= microsecond t <= 999999.

(** [timedelta(days, seconds, microseconds)] normalises its fields. *)
Definition new_timedelta (d s us : Z) : timedelta :=
  let total := (d * 86400 + s) * 1000000 + us in
  {| days := total / 86400000000;
     seconds := total mod 86400000000 / 1000000;
     microseconds := total mod 1000000 |}.

(** [datetime.__sub__] on two naive datetimes. *)
Definition datetime_sub (a b : datetime) : timedelta :=
  new_timedelta
    (toordinal a - toordinal b)
    ((second a + minute a * 60 + hour a * 3600)
     - (second b + minute b * 60 + hour b * 3600))
    (microsecond a - microsecond b).

Definition total_microseconds (td : timedelta) : Z :=
  (days td * 86400 + seconds td) * 1000000 + microseconds td.

(** *** Integer true division and [int(float)]

    [n / d] on two integers is the binary64 value nearest to the exact
    quotient, ties to the even significand.  A timedelta is far inside the
    range of binary64, so overflow is left out. *)

Definition round_half_even (num den : Z) : Z :=
  let q := num / den in
  let r := num mod den in
  if 2 * r <? den then q
  else if den <? 2 * r then q + 1
  else if Z.even q then q else q + 1.

(** [floor (log2 (n / d))] for positive [n] and [d]. *)
Definition binade (n d : Z) : Z :=
  let k := Z.log2 n - Z.log2 d in
  let reaches := if 0 <=? k then d * 2 ^ k <=? n else d <=? n * 2 ^ (- k) in
  if reaches then k else k - 1.

Definition nearest_float (n d : Z) : float64 :=
  let e := Z.max (binade n d - 52) (-1074) in
  let m := if 0 <=? e then round_half_even n (d * 2 ^ e)
           else round_half_even (n * 2 ^ (- e)) d in
  {| mant := m; expo := e |}.

Definition true_div (n d : Z) : float64 :=
  if n =? 0 then {| mant := 0; expo := 0 |}
  else if 0 <? n then nearest_float n d
  else let x := nearest_float (- n) d in {| mant := - mant x; expo := expo x |}.

(** [timedelta.total_seconds()]: the microseconds over [10**6], in true
    division. *)
Definition total_seconds (td : timedelta) : float64 :=
  true_div (total_microseconds td) (10 ^ 6).

(** [int(x)] on a float: towards zero. *)
Definition int_of_float (x : float64) : Z :=
  if 0 <=? expo x then mant x * 2 ^ expo x
  else Z.quot (mant x) (2 ^ (- expo x)).

(** [datetime.datetime.utcfromtimestamp(0)] *)
Definition utcfromtimestamp_0 : datetime :=
  {| year := 1970; month := 1; day := 1;
     hour := 0; minute := 0; second := 0; microsecond := 0 |}.

End Py.

(** ** The response normaliser *)

Import Py.

Definition EPOCH : datetime := utcfromtimestamp_0.

(** The two key rewrites of the dictionary branch, in the order of the
    source: ["_cls"] becomes ["type"], then one leading underscore goes. *)
Definition rename_key (key : string) : string :=
  let key := if String.eqb key "_cls" then "type" else key in
  if startswith_underscore key then drop_first key else key.

(** The body of the loop over [obj.items()], from the cleaned value on: a
    [None] is skipped, anything else is stored under the rewritten key. *)
Definition keep_entry (plugin_dict : dict) (key : string) (val : pyval)
  : dict :=
  match val with
  | PNone => plugin_dict
  | _ => dict_set plugin_dict (rename_key key) val
  end.

Fixpoint _cleanup (obj : pyval) : pyval :=
  if (is_iterable obj && (count_elements obj =? 0))%bool then PNone
  else
    match obj with
    | PDict entries =>
        PDict
          (fold_left
             (fun plugin_dict kv =>
                keep_entry plugin_dict (fst kv) (_cleanup (snd kv)))
             entries [])
    | PList items => PList (map _cleanup items)
    | PUUID u => PStr (str_UUID u)
    | PDatetime t => PInt (int_of_float (total_seconds (datetime_sub t EPOCH)))
    | _ => obj
    end.

(** ** Requests, outcomes and the document store *)

(** [request.args]: the pairs of the query string in order; a key may come
    more than once. *)
Definition multidict : Type := list (string * string).

(** [args[key]] under [key in args]: the first value of the key, [None]
    where the key is not in the query string. *)
Definition args_get (args : multidict) (key : string) : option string :=
  dict_get args key.

(** [args.items()]: every key once, with its first value. *)
Fixpoint items_unseen (seen : list string) (args : multidict)
  : list (string * string) :=
  match args with
  | [] => []
  | (k, v) :: rest =>
      if existsb (String.eqb k) seen then items_unseen seen rest
      else (k, v) :: items_unseen (k :: seen) rest
  end.

Definition args_items (args : multidict) : list (string * string) :=
  items_unseen [] args.

(** The exceptions met in this file: the built-in ones, the two of
    [.get(...)], and those the document mapper raises from [.update(...)]
    other than [ValueError]: [OperationError] (no keyword at all, or a write
    the database refuses), [InvalidQueryError] (a keyword that names no
    field) and [ValidationError] (a value the field does not take). *)
Inductive exn : Type :=
| ValueError
| KeyError
| DoesNotExist
| MultipleObjectsReturned
| OperationError
| InvalidQueryError
| ValidationError.

(** What leaves a handler other than by [return]: [abort(status)] of the
    web framework, or an exception that no handler of this file catches. *)
Inductive signal : Type :=
| HTTPAbort (status : Z)
| Uncaught (e : exn).

Inductive result (A : Type) : Type :=
| Ok (a : A)
| Raise (sg : signal).
Arguments Ok {A} a.
Arguments Raise {A} sg.

Definition bind {A B : Type} (r : result A) (k : A -> result B) : result B :=
  match r with
  | Ok a => k a
  | Raise sg => Raise sg
  end.

Notation "x <- r ;; k" := (bind r (fun x => k))
  (at level 61, r at next level, right associativity).

(** A handler returns [(body, status)]. *)
Definition response : Type := (pyval * Z)%type.
Definition outcome : Type := result response.

(** The status line the client gets: the framework answers an [abort] with
    its status and an uncaught exception with 500. *)
Definition http_status (o : outcome) : Z :=
  match o with
  | Ok (_, status) => status
  | Raise (HTTPAbort status) => status
  | Raise (Uncaught _) => 500
  end.

Definition is_client_error (status : Z) : bool :=
  ((400 <=? status) && (status <? 500))%bool.

(** Modelled from the spec: the embedded document class [PluginUpdate] of
    metrics/database/models.py, which is not among the sources.  Section 3
    gives an update caller-supplied fields that no handler reads (version,
    changelog, creation timestamp) and a server identifier. *)
Record PluginUpdate : Type := mkPluginUpdate {
  update_fields : dict;
  server_id : option string
}.

Definition without_key (key : string) (d : dict) : dict :=
  filter (fun kv => negb (String.eqb (fst kv) key)) d.

Definition str_field (d : dict) (key : string) : option string :=
  match dict_get d key with
  | Some (PStr s) => Some s
  | _ => None
  end.

(** Modelled from the spec: the constructor [PluginUpdate] applied to the
    keywords of the body: [server_id] next to the other fields. *)
Definition PluginUpdate_init (body : dict) : PluginUpdate :=
  {| update_fields := without_key "server_id" body;
     server_id := str_field body "server_id" |}.

Definition set_server_id (u : PluginUpdate) (sid : string) : PluginUpdate :=
  {| update_fields := update_fields u; server_id := Some sid |}.

Inductive plugin_class : Type := GenericPlugin | SpigotPlugin.

(** Modelled from the spec: the document class [Plugin] of
    metrics/database/models.py and its subclass [SpigotPlugin], which are not
    among the sources.  Section 3 gives a plugin an identifier, name,
    description, download URL, the variant with its own fields such as
    [spigot_name], and the ordered updates. *)
Record Plugin : Type := mkPlugin {
  cls : plugin_class;
  id : option UUID;
  name : option string;
  description : option string;
  download_url : option string;
  variant_fields : dict;
  updates : list PluginUpdate
}.

Definition set_id (p : Plugin) (u : UUID) : Plugin :=
  mkPlugin (cls p) (Some u) (name p) (description p) (download_url p)
           (variant_fields p) (updates p).

Definition set_updates (p : Plugin) (us : list PluginUpdate) : Plugin :=
  mkPlugin (cls p) (id p) (name p) (description p) (download_url p)
           (variant_fields p) us.

Definition plugin_keywords : list string :=
  ["id"; "name"; "description"; "download_url"; "updates"].

(** Modelled from the spec: the constructors [Plugin] and [SpigotPlugin]
    applied to the keywords of the body. *)
Definition Plugin_init (c : plugin_class) (body : dict) : Plugin :=
  {| cls := c;
     id := match dict_get body "id" with Some (PUUID u) => Some u | _ => None end;
     name := str_field body "name";
     description := str_field body "description";
     download_url := str_field body "download_url";
     variant_fields :=
       filter (fun kv => negb (existsb (String.eqb (fst kv)) plugin_keywords))
              body;
     updates :=
       match dict_get body "updates" with
       | Some (PList us) =>
           map (fun u => match u with
                         | PDict d => PluginUpdate_init d
                         | _ => PluginUpdate_init []
                         end) us
       | _ => []
       end |}.

Definition optional (key : string) (v : option pyval) : dict :=
  match v with
  | Some x => [(key, x)]
  | None => []
  end.

(** Modelled from the spec: [to_mongo()], the stored form of a document with
    the identifier under ["_id"] and the class under ["_cls"]. *)
Definition PluginUpdate_to_mongo (u : PluginUpdate) : pyval :=
  PDict (update_fields u ++ optional "server_id" (option_map PStr (server_id u))).

Definition Plugin_to_mongo (p : Plugin) : dict :=
  optional "_id" (option_map PUUID (id p))
  ++ [("_cls", PStr match cls p with
                    | GenericPlugin => "Plugin"
                    | SpigotPlugin => "Plugin.SpigotPlugin"
                    end)]
  ++ optional "name" (option_map PStr (name p))
  ++ optional "description" (option_map PStr (description p))
  ++ optional "download_url" (option_map PStr (download_url p))
  ++ variant_fields p
  ++ [("updates", PList (map PluginUpdate_to_mongo (updates p)))].

(** The collection behind [Plugin.objects]; a [SpigotPlugin] lives in the
    same collection. *)
Definition store : Type := list Plugin.

Definition UUID_eqb (a b : UUID) : bool := uuid_int a =? uuid_int b.

Definition option_eqb {A : Type} (eqb : A -> A -> bool) (a b : option A)
  : bool :=
  match a, b with
  | Some x, Some y => eqb x y
  | None, None => true
  | _, _ => false
  end.

Definition has_id (plugin_id : UUID) (p : Plugin) : bool :=
  option_eqb UUID_eqb (id p) (Some plugin_id).

(** *** The query set operations the handlers call *)

(** [Plugin.objects(id=plugin_id)] and [Plugin.objects.filter(id=plugin_id)] *)
Definition objects_by_id (plugin_id : UUID) (db : store) : list Plugin :=
  filter (has_id plugin_id) db.

(** [Plugin.objects(name=..., description=..., download_url=...)] *)
Definition same_triple (p q : Plugin) : bool :=
  (option_eqb String.eqb (name q) (name p)
   && option_eqb String.eqb (description q) (description p)
   && option_eqb String.eqb (download_url q) (download_url p))%bool.

Definition objects_by_triple (p : Plugin) (db : store) : list Plugin :=
  filter (same_triple p) db.

(** [.get(...)]: exactly one document, or an exception. *)
Definition queryset_get (matching : list Plugin) : result Plugin :=
  match matching with
  | [] => Raise (Uncaught DoesNotExist)
  | [p] => Ok p
  | _ => Raise (Uncaught MultipleObjectsReturned)
  end.

(** [.first_or_404()] and [.get_or_404(...)]: no document aborts with 404. *)
Definition first_or_404 (matching : list Plugin) : result Plugin :=
  match matching with
  | [] => Raise (HTTPAbort 404)
  | p :: _ => Ok p
  end.

Definition get_or_404 (matching : list Plugin) : result Plugin :=
  match queryset_get matching with
  | Raise (Uncaught DoesNotExist) => Raise (HTTPAbort 404)
  | r => r
  end.

(** [.delete()]: the number of documents removed, and what is left. *)
Definition queryset_delete (plugin_id : UUID) (db : store) : Z * store :=
  (Z.of_nat (List.length (objects_by_id plugin_id db)),
   filter (fun p => negb (has_id plugin_id p)) db).

(** [document.save()]: the document replaces the stored one of its
    identifier, or joins the collection. *)
Definition same_id (p q : Plugin) : bool := option_eqb UUID_eqb (id q) (id p).

Definition save (p : Plugin) (db : store) : store :=
  if existsb (same_id p) db
  then map (fun q => if same_id p q then p else q) db
  else db ++ [p].

(** ** The handlers *)

Definition dict_contains (d : dict) (key : string) : bool :=
  match dict_get d key with Some _ => true | None => false end.

(** [d.update(other)] *)
Definition dict_update (d other : dict) : dict :=
  fold_left (fun acc kv => dict_set acc (fst kv) (snd kv)) other d.

Definition message (key text : string) : pyval := PDict [(key, PStr text)].

(** *** The query translation at the top of [PluginsAPI.get] *)

(** Lines 60-65: the limit of the query. *)
Definition query_limit (args : multidict) : result Z :=
  match args_get args "limit" with
  | None => Ok 20
  | Some text =>
      match int_of_str text with
      | None => Raise (Uncaught ValueError)
      | Some limit => Ok (if 300 <? limit then 300 else limit)
      end
  end.

Definition is_boolean_word (v : string) : bool :=
  (String.eqb (lower v) "true" || String.eqb (lower v) "false")%bool.

(** Lines 67-71: the keyword filter, first every parameter but [limit] and
    [type] with its string, then the boolean words replaced. *)
Definition plugin_query (args : multidict) : dict :=
  let plugin_query :=
    fold_left (fun acc kv => dict_set acc (fst kv) (PStr (snd kv)))
      (filter (fun kv => negb (String.eqb (fst kv) "limit")
                         && negb (String.eqb (fst kv) "type"))%bool
              (args_items args))
      [] in
  dict_update plugin_query
    (fold_left
       (fun acc kv =>
          match snd kv with
          | PStr v =>
              if is_boolean_word v
              then dict_set acc (fst kv) (PBool (String.eqb (lower v) "true"))
              else acc
          | _ => acc
          end)
       plugin_query []).

(** ['type' in args and 'spigot' in args['type']] *)
Definition wants_spigot (args : multidict) : bool :=
  match args_get args "type" with
  | Some t => contains "spigot" t
  | None => false
  end.

(** Lines 78-83: no plugin is a 404, any other number the cleaned list. *)
Definition answer_plugins (plugins : list Plugin) : outcome :=
  if Z.of_nat (List.length plugins) =? 0
  then Ok (message "error" "Query returned no response.", 404)
  else Ok (_cleanup (PList (map (fun pl => PDict (Plugin_to_mongo pl)) plugins)),
           200).

Section Handlers.

(** The query engine of the document mapper, outside this repository: the
    documents of [cls.objects(kwargs).only('id', 'name').limit(limit)]. *)
Variable select : plugin_class -> dict -> Z -> store -> list Plugin.

(** The document mapper's reading of the keywords of an update, outside
    this repository: the change they make to a document, or the exception
    it raises on them before any document is touched. *)
Variable update_of : dict -> exn + (Plugin -> Plugin).

(** [PluginsAPI.get] *)
Definition PluginsAPI_get (args : multidict) (db : store) : outcome :=
  limit <- query_limit args ;;
  let plugin_query := plugin_query args in
  let plugins :=
    if wants_spigot args then select SpigotPlugin plugin_query limit db
    else select GenericPlugin plugin_query limit db in
  answer_plugins plugins.

Definition lacks_server_id (update : PluginUpdate) : bool :=
  match server_id update with
  | None => true
  | Some sid => Z.of_nat (String.length sid) =? 0
  end.

(** [PluginsAPI.post], with the identity of the token and the value of
    [uuid.uuid4()] as arguments. *)
Definition PluginsAPI_post (identity : string) (uuid4 : UUID)
    (args : multidict) (body : dict) (db : store) : outcome * store :=
  let plugin :=
    if (wants_spigot args || dict_contains body "spigot_name")%bool
    then Plugin_init SpigotPlugin body
    else Plugin_init GenericPlugin body in
  let plugin := set_id plugin uuid4 in
  let plugin :=
    set_updates plugin
      (map (fun update =>
              if lacks_server_id update then set_server_id update identity
              else update)
           (updates plugin)) in
  let duplicates := objects_by_triple plugin db in
  if 0 <? Z.of_nat (List.length duplicates)
  then (Ok (message "msg" "Document already exists.", 400), db)
  else (Ok (PDict [("id", PStr match id plugin with
                               | Some u => str_UUID u
                               | None => "None"
                               end)], 200),
        save plugin db).

(** [.update(kwargs)] on the documents of an identifier: the number of
    documents changed and the collection after, or the exception of the
    document mapper. *)
Definition queryset_update (plugin_id : UUID) (body : dict) (db : store)
  : result (Z * store) :=
  match update_of body with
  | inl e => Raise (Uncaught e)
  | inr change =>
      Ok (Z.of_nat (List.length (objects_by_id plugin_id db)),
          map (fun p => if has_id plugin_id p then change p else p) db)
  end.

(** [PluginAPI.put]: of the exceptions of [.update] only [ValueError] is
    caught and counted as no document; every other one leaves the handler. *)
Definition PluginAPI_put (plugin_id : UUID) (body : dict) (db : store)
  : outcome * store :=
  let answer (updated_doc_count : Z) (db' : store) : outcome * store :=
    if 0 <? updated_doc_count then (Ok (PStr "", 200), db')
    else (Ok (message "msg" "No documents found under that id.", 404), db')
  in
  match queryset_update plugin_id body db with
  | Ok (updated_doc_count, db') => answer updated_doc_count db'
  | Raise (Uncaught ValueError) => answer 0 db
  | Raise sg => (Raise sg, db)
  end.

(** [PluginAPI.delete] *)
Definition PluginAPI_delete (plugin_id : UUID) (db : store)
  : outcome * store :=
  let '(deleted_doc_count, db') := queryset_delete plugin_id db in
  if 0 <? deleted_doc_count then (Ok (PStr "", 200), db')
  else (Ok (message "msg" "No documents found under that id.", 404), db').

(** [PluginAPI.get] *)
Definition PluginAPI_get (plugin_id : UUID) (db : store) : outcome :=
  plugin <- first_or_404 (objects_by_id plugin_id db) ;;
  let update := _cleanup (PDict (Plugin_to_mongo plugin)) in
  Ok (update, 200).

(** [UpdatesAPI.get] *)
Definition UpdatesAPI_get (plugin_id : UUID) (db : store) : outcome :=
  updates <- get_or_404 (objects_by_id plugin_id db) ;;
  match dict_get (Plugin_to_mongo updates) "updates" with
  | Some found => Ok (_cleanup found, 200)
  | None => Raise (Uncaught KeyError)
  end.

(** [UpdatesAPI.post], with the identity of the token as argument. *)
Definition UpdatesAPI_post (identity : string) (plugin_id : UUID)
    (body : dict) (db : store) : outcome * store :=
  match queryset_get (objects_by_id plugin_id db) with
  | Raise sg => (Raise sg, db)
  | Ok plugin =>
      let plugin_update := PluginUpdate_init body in
      let plugin_update := set_server_id plugin_update identity in
      let plugin := set_updates plugin (updates plugin ++ [plugin_update]) in
      (Ok (PStr "", 200), save plugin db)
  end.

End Handlers.

(** ** The vocabulary of the properties *)

(** The shapes the claims speak of. *)
Definition is_plain_scalar (v : pyval) : bool :=
  match v with
  | PNone | PBool _ | PInt _ | PFloat _ | PStr _ => true
  | _ => false
  end.

Definition is_empty_collection (v : pyval) : bool :=
  match v with
  | PList [] | PDict [] | PSet [] => true
  | _ => false
  end.

(** No empty list, dictionary or set at the top or below, through the values
    of dictionaries and the elements of lists. *)
Fixpoint free_of_empty_collections (v : pyval) : bool :=
  match v with
  | PList items =>
      negb (Nat.eqb (List.length items) 0)
      && forallb free_of_empty_collections items
  | PDict entries =>
      negb (Nat.eqb (List.length entries) 0)
      && forallb (fun kv => free_of_empty_collections (snd kv)) entries
  | PSet members => negb (Nat.eqb (List.length members) 0)
  | _ => true
  end.

(** The same without the test on dictionaries. *)
Fixpoint free_of_empty_lists_and_sets (v : pyval) : bool :=
  match v with
  | PList items =>
      negb (Nat.eqb (List.length items) 0)
      && forallb free_of_empty_lists_and_sets items
  | PDict entries =>
      forallb (fun kv => free_of_empty_lists_and_sets (snd kv)) entries
  | PSet members => negb (Nat.eqb (List.length members) 0)
  | _ => true
  end.

(** No empty dictionary and no key with a leading underscore, at the top or
    below, through the values of dictionaries and the elements of lists. *)
Fixpoint tidy (v : pyval) : bool :=
  match v with
  | PList items => forallb tidy items
  | PDict entries =>
      negb (Nat.eqb (List.length entries) 0)
      && forallb (fun kv => negb (startswith_underscore (fst kv))
                            && tidy (snd kv)) entries
  | _ => true
  end.

(** The dictionary loop, on entries already cleaned. *)
Definition collect (entries acc : dict) : dict :=
  fold_left (fun plugin_dict kv => keep_entry plugin_dict (fst kv) (snd kv))
            entries acc.

Definition cleaned (entries : dict) : dict :=
  map (fun kv => (fst kv, _cleanup (snd kv))) entries.

Definition stored_plugin_document : pyval :=
  PDict [("_id", PUUID (mkUUID 7));
         ("_cls", PStr "Plugin");
         ("name", PStr "essentials");
         ("description", PStr "");
         ("updates", PList [PDict [("version", PStr "1.0");
                                   ("server_id", PStr "srv");
                                   ("notes", PList [])]])].

(** The triple a create request asks for. *)
Definition requested_triple (body : dict)
  : option string * option string * option string :=
  (str_field body "name", str_field body "description",
   str_field body "download_url").

Definition triple_of (p : Plugin)
  : option string * option string * option string :=
  (name p, description p, download_url p).

Definition essentials : Plugin :=
  {| cls := GenericPlugin; id := Some (mkUUID 1);
     name := Some "X"; description := Some "Y"; download_url := Some "Z";
     variant_fields := []; updates := [] |}.

Definition essentials_with_update : Plugin :=
  {| cls := GenericPlugin; id := Some (mkUUID 1);
     name := Some "X"; description := Some "Y"; download_url := Some "Z";
     variant_fields := [];
     updates := [{| update_fields := [("version", PStr "1.0")];
                    server_id := Some "old" |}] |}.

(** What the claim says a parameter value becomes. *)
Definition coerced (v : string) : pyval :=
  if String.eqb (lower v) "true" then PBool true
  else if String.eqb (lower v) "false" then PBool false
  else PStr v.

(** The entry the boolean pass stores for a value of the first pass. *)
Definition boolean_entry (val : pyval) : option pyval :=
  match val with
  | PStr v =>
      if is_boolean_word v then Some (PBool (String.eqb (lower v) "true"))
      else None
  | _ => None
  end.

Definition boolean_entries (d : dict) : dict :=
  flat_map (fun kv => match boolean_entry (snd kv) with
                      | Some b => [(fst kv, b)]
                      | None => []
                      end) d.

Definition is_filter_key (k : string) : bool :=
  (negb (String.eqb k "limit") && negb (String.eqb k "type"))%bool.

(** The exact distance from [EPOCH], in microseconds. *)
Definition microseconds_since_epoch (t : datetime) : Z :=
  ((toordinal t - toordinal EPOCH) * 86400
   + (second t + minute t * 60 + hour t * 3600)) * 1000000
  + microsecond t.

(** Half a second into 2020, and the last millisecond a [datetime] can
    hold. *)
Definition half_past_2020 : datetime :=
  {| year := 2020; month := 1; day := 1;
     hour := 0; minute := 0; second := 0; microsecond := 500000 |}.

Definition last_millisecond : datetime :=
  {| year := 9999; month := 12; day := 31;
     hour := 23; minute := 59; second := 59; microsecond := 999000 |}.

(** The last microsecond of the year 2599. *)
Definition last_of_2599 : datetime :=
  {| year := 2599; month := 12; day := 31;
     hour := 23; minute := 59; second := 59; microsecond := 999999 |}.

(** ** The vocabulary of the further properties *)

(** No set at the top or below, through the values of dictionaries and the
    elements of lists. *)
Fixpoint free_of_sets (v : pyval) : bool :=
  match v with
  | PSet _ => false
  | PList items => forallb free_of_sets items
  | PDict entries => forallb (fun kv => free_of_sets (snd kv)) entries
  | _ => true
  end.

(** Made of what [json.dumps] takes as it is: [None], booleans, numbers,
    strings, and lists and dictionaries of these. *)
Fixpoint json_native (v : pyval) : bool :=
  match v with
  | PNone | PBool _ | PInt _ | PFloat _ | PStr _ => true
  | PList items => forallb json_native items
  | PDict entries => forallb (fun kv => json_native (snd kv)) entries
  | PSet _ | PUUID _ | PDatetime _ => false
  end.

Definition is_None (v : pyval) : bool :=
  match v with
  | PNone => true
  | _ => false
  end.

(** No dictionary, at the top or below, has [None] for a value. *)
Fixpoint free_of_null_values (v : pyval) : bool :=
  match v with
  | PList items => forallb free_of_null_values items
  | PDict entries =>
      forallb (fun kv => negb (is_None (snd kv))
                         && free_of_null_values (snd kv)) entries
  | _ => true
  end.

(** No string value is empty: the value itself, the elements of a list
    and the values of a dictionary, at any depth.  The keys of a dictionary
    and the members of a set are not looked at. *)
Fixpoint free_of_empty_string_values (v : pyval) : bool :=
  match v with
  | PStr s => negb (Nat.eqb (String.length s) 0)
  | PList items => forallb free_of_empty_string_values items
  | PDict entries =>
      forallb (fun kv => free_of_empty_string_values (snd kv)) entries
  | _ => true
  end.

(** The entries of a dictionary value, none for any other value. *)
Definition entries_of (v : pyval) : dict :=
  match v with
  | PDict entries => entries
  | _ => []
  end.

(** Reading hexadecimal digits back. *)
Definition hex_value (c : ascii) : Z :=
  let n := Z.of_nat (nat_of_ascii c) in
  if n <? 58 then n - 48 else n - 87.

Definition digits_value (l : list ascii) : Z :=
  fold_left (fun acc c => 16 * acc + hex_value c) l 0.

(** The 32 characters of a string of 36 that stand before, between and
    after its four hyphens. *)
Definition canonical_digits (s : string) : list ascii :=
  let l := list_ascii_of_string s in
  slice 0 8 l ++ slice 9 13 l ++ slice 14 18 l ++ slice 19 23 l
  ++ skipn 24 l.

(** The characters [0] to [9] and [a] to [f]. *)
Definition is_lower_hex (c : ascii) : bool :=
  let n := nat_of_ascii c in
  ((Nat.leb 48 n && Nat.leb n 57) || (Nat.leb 97 n && Nat.leb n 102))%bool.

(** A character of ASCII: one byte below 128. *)
Definition is_ascii (c : ascii) : bool := byte c <? 128.

(** The ASCII characters [int] can make something of: white space, a sign,
    a decimal digit, an underscore. *)
Definition is_integer_char (c : ascii) : bool :=
  (is_space c
   || match digit_value c with Some _ => true | None => false end
   || Ascii.eqb c "_"%char || Ascii.eqb c "-"%char || Ascii.eqb c "+"%char)%bool.

(** A query engine that is only ever asked for 300 documents or fewer: past
    that it finds nothing. *)
Definition capped (select : plugin_class -> dict -> Z -> store -> list Plugin)
  : plugin_class -> dict -> Z -> store -> list Plugin :=
  fun c query limit db => if limit <=? 300 then select c query limit db else [].

(** A create request with one update that names no server and one that
    does. *)
Definition body_with_two_updates : dict :=
  [("name", PStr "other");
   ("updates", PList [PDict [("version", PStr "1.0")];
                      PDict [("version", PStr "1.1");
                             ("server_id", PStr "mirror")]])].

(** A body no stored plugin shares its fields with. *)
Definition other_body : dict :=
  [("name", PStr "other"); ("description", PStr "d")].

(** The update an append stores. *)
(** A document mapper for the examples of [PluginAPI.put]: no keyword at
    all is an [OperationError], an [id] that is no identifier a
    [ValueError], and any other body empties the updates. *)
Definition example_mapper (body : dict) : exn + (Plugin -> Plugin) :=
  match body with
  | [] => inl OperationError
  | _ :: _ =>
      match dict_get body "id" with
      | Some (PStr _) => inl ValueError
      | _ => inr (fun p => set_updates p [])
      end
  end.

Definition appended (identity : string) (body : dict) : PluginUpdate :=
  set_server_id (PluginUpdate_init body) identity.

Definition not_found : pyval :=
  message "msg" "No documents found under that id.".

(** ** Properties of the normaliser *)

Lemma cleanup_loop (entries acc : dict) :
  fold_left (fun plugin_dict kv =>
               keep_entry plugin_dict (fst kv) (_cleanup (snd kv)))
            entries acc
  = collect (cleaned entries) acc.
Proof.
  revert acc. induction entries as [|kv rest IH]; intros acc; simpl.
  - reflexivity.
  - rewrite IH. reflexivity.
Qed.

Lemma cleanup_dict (kv : string * pyval) (rest : dict) :
  _cleanup (PDict (kv :: rest)) = PDict (collect (cleaned (kv :: rest)) []).
Proof.
  rewrite <- cleanup_loop. reflexivity.
Qed.

Lemma cleanup_list (x : pyval) (rest : list pyval) :
  _cleanup (PList (x :: rest)) = PList (map _cleanup (x :: rest)).
Proof. reflexivity. Qed.

Lemma collect_app (a b acc : dict) :
  collect (a ++ b) acc = collect b (collect a acc).
Proof. apply fold_left_app. Qed.

Lemma cleaned_app (a b : dict) : cleaned (a ++ b) = cleaned a ++ cleaned b.
Proof. apply map_app. Qed.

(** What [dict_set] does to the values and to the keys. *)
Lemma dict_set_values (Q : pyval -> Prop) (d : dict) (k : string) (v : pyval) :
  Forall (fun kv => Q (snd kv)) d -> Q v ->
  Forall (fun kv => Q (snd kv)) (dict_set d k v).
Proof.
  intros Hd Hv. induction d as [|[k' v'] rest IH]; simpl.
  - constructor; [exact Hv | constructor].
  - inversion Hd; subst. destruct (String.eqb k' k).
    + constructor; assumption.
    + constructor; [assumption | apply IH; assumption].
Qed.

Lemma dict_set_fresh {V : Type} (d : list (string * V)) (k : string) (v : V) :
  ~ In k (map fst d) -> dict_set d k v = d ++ [(k, v)].
Proof.
  induction d as [|[k' v'] rest IH]; simpl; intros Hk.
  - reflexivity.
  - destruct (String.eqb_spec k' k) as [->|Hne].
    + exfalso. apply Hk. left. reflexivity.
    + rewrite IH; [reflexivity | intros Hin; apply Hk; right; exact Hin].
Qed.

Lemma dict_set_keys {V : Type} (d : list (string * V)) (k : string) (v : V) :
  map fst (dict_set d k v)
  = if existsb (String.eqb k) (map fst d) then map fst d
    else map fst d ++ [k].
Proof.
  induction d as [|[k' v'] rest IH]; simpl.
  - reflexivity.
  - rewrite (String.eqb_sym k k').
    destruct (String.eqb k' k); simpl.
    + reflexivity.
    + rewrite IH. destruct (existsb (String.eqb k) (map fst rest));
        reflexivity.
Qed.

Lemma dict_set_NoDup {V : Type} (d : list (string * V)) (k : string)
    (v : V) :
  NoDup (map fst d) -> NoDup (map fst (dict_set d k v)).
Proof.
  intros Hd. rewrite dict_set_keys.
  destruct (existsb (String.eqb k) (map fst d)) eqn:E.
  - exact Hd.
  - apply NoDup_app; [exact Hd | constructor; [intros [] | constructor] |].
    intros x Hx [Hk|[]]. subst x.
    assert (existsb (String.eqb k) (map fst d) = true) as Ht.
    { apply existsb_exists. exists k. split; [exact Hx | apply String.eqb_refl]. }
    congruence.
Qed.

Lemma keep_entry_values (Q : pyval -> Prop) (d : dict) (k : string)
    (v : pyval) :
  Forall (fun kv => Q (snd kv)) d -> (v <> PNone -> Q v) ->
  Forall (fun kv => Q (snd kv)) (keep_entry d k v).
Proof.
  intros Hd Hv.
  destruct v; simpl; try exact Hd; apply dict_set_values;
    try exact Hd; apply Hv; discriminate.
Qed.

Lemma keep_entry_NoDup (d : dict) (k : string) (v : pyval) :
  NoDup (map fst d) -> NoDup (map fst (keep_entry d k v)).
Proof.
  intros Hd. destruct v; simpl; try exact Hd; apply dict_set_NoDup; exact Hd.
Qed.

Lemma collect_values (Q : pyval -> Prop) (entries acc : dict) :
  Forall (fun kv => Q (snd kv)) acc ->
  Forall (fun kv => snd kv <> PNone -> Q (snd kv)) entries ->
  Forall (fun kv => Q (snd kv)) (collect entries acc).
Proof.
  revert acc. induction entries as [|kv rest IH]; intros acc Hacc He; simpl.
  - exact Hacc.
  - inversion He; subst. apply IH; [|assumption].
    apply keep_entry_values; assumption.
Qed.

Lemma collect_NoDup (entries acc : dict) :
  NoDup (map fst acc) -> NoDup (map fst (collect entries acc)).
Proof.
  revert acc. induction entries as [|kv rest IH]; intros acc Hacc; simpl.
  - exact Hacc.
  - apply IH. apply keep_entry_NoDup. exact Hacc.
Qed.

Lemma cleanup_dict_nonempty (entries : dict) :
  entries <> [] ->
  _cleanup (PDict entries) = PDict (collect (cleaned entries) []).
Proof.
  destruct entries as [|kv rest]; [congruence | intros _; apply cleanup_dict].
Qed.

Lemma cleanup_list_nonempty (items : list pyval) :
  items <> [] -> _cleanup (PList items) = PList (map _cleanup items).
Proof.
  destruct items as [|x rest]; [congruence | intros _; apply cleanup_list].
Qed.

Lemma cleanup_empty_collection (v : pyval) :
  is_empty_collection v = true -> _cleanup v = PNone.
Proof.
  destruct v as [| | | | |[|x l]|[|kv l]|[|x l]| |]; simpl;
    try discriminate; reflexivity.
Qed.

Lemma cleaned_values (Q : pyval -> Prop) (entries : dict) :
  Forall (fun kv => Q (_cleanup (snd kv))) entries ->
  Forall (fun kv => snd kv <> PNone -> Q (snd kv)) (cleaned entries).
Proof.
  intros H. unfold cleaned. apply Forall_map.
  eapply Forall_impl; [|exact H]. simpl. intros kv Hq _. exact Hq.
Qed.

Lemma cleanup_free_of_empty_lists_and_sets (obj : pyval) :
  free_of_empty_lists_and_sets (_cleanup obj) = true.
Proof.
  induction obj as [| | | |s|items IH|entries IH|members _| |]
    using pyval_nested_ind; try reflexivity.
  - destruct s; reflexivity.
  - destruct items as [|x rest]; [reflexivity|].
    rewrite cleanup_list. simpl negb. simpl andb.
    apply forallb_forall. intros y Hy.
    apply in_map_iff in Hy. destruct Hy as [z [<- Hz]].
    rewrite Forall_forall in IH. apply IH. exact Hz.
  - destruct entries as [|kv rest]; [reflexivity|].
    rewrite cleanup_dict. set (E := collect (cleaned (kv :: rest)) []).
    change (forallb (fun e => free_of_empty_lists_and_sets (snd e)) E = true).
    apply forallb_forall. apply Forall_forall. subst E.
    apply (collect_values (fun v => free_of_empty_lists_and_sets v = true)).
    + constructor.
    + apply (cleaned_values (fun v => free_of_empty_lists_and_sets v = true)).
      exact IH.
  - destruct members; reflexivity.
Qed.

Lemma collect_skips_None (k : string) (rest acc : dict) :
  collect ((k, PNone) :: rest) acc = collect rest acc.
Proof. reflexivity. Qed.

Lemma cleanup_dict_omits (pre post : dict) (k : string) (v : pyval) :
  is_empty_collection v = true -> pre ++ post <> [] ->
  _cleanup (PDict (pre ++ (k, v) :: post)) = _cleanup (PDict (pre ++ post)).
Proof.
  intros Hv Hne.
  rewrite (cleanup_dict_nonempty (pre ++ post) Hne).
  rewrite cleanup_dict_nonempty by (destruct pre; discriminate).
  rewrite !cleaned_app, !collect_app. simpl cleaned.
  rewrite (cleanup_empty_collection v Hv). reflexivity.
Qed.

Lemma cleanup_list_nulls (pre post : list pyval) (v : pyval) :
  is_empty_collection v = true ->
  _cleanup (PList (pre ++ v :: post))
  = PList (map _cleanup pre ++ PNone :: map _cleanup post).
Proof.
  intros Hv.
  rewrite cleanup_list_nonempty by (destruct pre; discriminate).
  rewrite map_app. simpl map. rewrite (cleanup_empty_collection v Hv).
  reflexivity.
Qed.

(** Storing, in order, entries with distinct keys that the accumulator does
    not have yet rebuilds them behind the accumulator. *)
Lemma store_distinct {V : Type} (entries acc : list (string * V)) :
  NoDup (map fst (acc ++ entries)) ->
  fold_left (fun d kv => dict_set d (fst kv) (snd kv)) entries acc
  = acc ++ entries.
Proof.
  revert acc. induction entries as [|[k v] rest IH]; intros acc Hnd; simpl.
  - symmetry. apply app_nil_r.
  - rewrite dict_set_fresh.
    + rewrite IH.
      * rewrite <- app_assoc. reflexivity.
      * rewrite <- app_assoc. exact Hnd.
    + rewrite map_app in Hnd. simpl in Hnd.
      apply NoDup_remove_2 in Hnd. intros Hin. apply Hnd.
      apply in_or_app. left. exact Hin.
Qed.

Lemma rename_key_plain (k : string) :
  startswith_underscore k = false -> rename_key k = k.
Proof.
  intros Hk. unfold rename_key.
  destruct (String.eqb_spec k "_cls") as [->|_]; [discriminate|].
  rewrite Hk. reflexivity.
Qed.

Lemma collect_fixed (entries acc : dict) :
  Forall (fun kv => startswith_underscore (fst kv) = false
                    /\ snd kv <> PNone) entries ->
  collect entries acc
  = fold_left (fun d kv => dict_set d (fst kv) (snd kv)) entries acc.
Proof.
  revert acc. induction entries as [|[k v] rest IH]; intros acc H; simpl.
  - reflexivity.
  - inversion H as [|? ? [Hk Hv] Hrest]; subst. simpl in Hk, Hv.
    unfold collect in IH. rewrite <- IH by exact Hrest.
    unfold collect. simpl. f_equal. unfold keep_entry.
    rewrite (rename_key_plain k Hk). destruct v; congruence.
Qed.

Lemma cleaned_fixed (entries : dict) :
  Forall (fun kv => _cleanup (snd kv) = snd kv) entries ->
  cleaned entries = entries.
Proof.
  induction 1 as [|[k v] rest Hkv _ IH]; simpl.
  - reflexivity.
  - simpl in Hkv. rewrite Hkv, IH. reflexivity.
Qed.

Lemma str_UUID_nonempty (u : UUID) : str_UUID u <> "".
Proof.
  unfold str_UUID.
  destruct (slice 0 8 (format_032x (uuid_int u))); discriminate.
Qed.

(** C1, as amended: whenever the output of [_cleanup] on a document holds no
    empty mapping and no key with a leading underscore (through the values
    of mappings and the elements of sequences), normalising that output
    again changes nothing: [_cleanup (_cleanup D) = _cleanup D]. *)
Theorem cleanup_idempotent_on_tidy_output (obj : pyval) :
  tidy (_cleanup obj) = true -> _cleanup (_cleanup obj) = _cleanup obj.
Proof.
  induction obj as [| | | |s|items IH|entries IH|members _|u|t]
    using pyval_nested_ind; try reflexivity.
  - destruct s; reflexivity.
  - destruct items as [|x rest]; [reflexivity|].
    rewrite cleanup_list. intros Ht.
    change (forallb tidy (map _cleanup (x :: rest)) = true) in Ht.
    rewrite cleanup_list_nonempty by discriminate.
    f_equal. rewrite map_map. apply map_ext_in. intros y Hy.
    rewrite Forall_forall in IH. apply IH; [exact Hy|].
    rewrite forallb_forall in Ht. apply Ht. apply in_map. exact Hy.
  - destruct entries as [|kv rest]; [reflexivity|].
    rewrite cleanup_dict. set (E := collect (cleaned (kv :: rest)) []).
    intros Ht.
    change (negb (Nat.eqb (List.length E) 0)
            && forallb (fun e => negb (startswith_underscore (fst e))
                                 && tidy (snd e)) E = true)%bool in Ht.
    apply andb_prop in Ht. destruct Ht as [Hne Ht].
    assert (E <> []) as HE by (destruct E; [discriminate | discriminate]).
    assert (Forall (fun e => snd e <> PNone
                             /\ (tidy (snd e) = true ->
                                 _cleanup (snd e) = snd e)) E) as Hvals.
    { apply (collect_values
               (fun v => v <> PNone /\ (tidy v = true -> _cleanup v = v))).
      - constructor.
      - apply Forall_map. eapply Forall_impl; [|exact IH].
        simpl. intros e He Hn. split; [exact Hn | exact He]. }
    assert (NoDup (map fst E)) as Hnd by (apply collect_NoDup; constructor).
    rewrite forallb_forall in Ht. rewrite Forall_forall in Hvals.
    rewrite (cleanup_dict_nonempty E HE). f_equal.
    rewrite cleaned_fixed.
    + rewrite collect_fixed.
      * apply (store_distinct E []). exact Hnd.
      * apply Forall_forall. intros e He.
        specialize (Ht e He). apply andb_prop in Ht. destruct Ht as [Hk _].
        split; [apply negb_true_iff; exact Hk | apply (Hvals e He)].
    + apply Forall_forall. intros e He.
      specialize (Ht e He). apply andb_prop in Ht. destruct Ht as [_ Hv].
      apply (Hvals e He). exact Hv.
  - destruct members; reflexivity.
  - intros _. simpl. destruct (str_UUID u) eqn:E; [|reflexivity].
    exfalso. exact (str_UUID_nonempty u E).
Qed.

Lemma cleanup_idempotent_on_tidy_output_witness :
  tidy (_cleanup stored_plugin_document) = true
  /\ _cleanup (_cleanup stored_plugin_document)
     = _cleanup stored_plugin_document.
Proof.
  split.
  - vm_compute. reflexivity.
  - apply (cleanup_idempotent_on_tidy_output stored_plugin_document).
    vm_compute. reflexivity.
Defined.

(** C1 as stated fails: a key with two leading underscores loses one at each
    pass, and a mapping whose values all normalise to nothing comes out as an
    empty mapping, which the next pass turns into [None]. *)
Lemma cleanup_not_idempotent :
  _cleanup (_cleanup (PDict [("__v", PInt 1)]))
    <> _cleanup (PDict [("__v", PInt 1)])
  /\ _cleanup (_cleanup (PDict [("a", PDict [("b", PList [])])]))
    <> _cleanup (PDict [("a", PDict [("b", PList [])])]).
Proof.
  split; vm_compute; discriminate.
Qed.

(** C2, as amended: no empty sequence and no empty set appears anywhere in
    the output of [_cleanup] (through the values of mappings and the
    elements of sequences); an empty collection at top level normalises to
    [None]; a mapping entry whose value is an empty collection is left out
    of the output of a mapping that has other entries; and a sequence
    element that is an empty collection becomes [None] in its place. *)
Theorem cleanup_empty_collections (obj : pyval) :
  free_of_empty_lists_and_sets (_cleanup obj) = true
  /\ (is_empty_collection obj = true -> _cleanup obj = PNone)
  /\ (forall pre post k v,
        obj = PDict (pre ++ (k, v) :: post) ->
        is_empty_collection v = true -> pre ++ post <> [] ->
        _cleanup obj = _cleanup (PDict (pre ++ post)))
  /\ (forall pre post v,
        obj = PList (pre ++ v :: post) ->
        is_empty_collection v = true ->
        _cleanup obj = PList (map _cleanup pre ++ PNone :: map _cleanup post)).
Proof.
  split; [apply cleanup_free_of_empty_lists_and_sets|].
  split; [apply cleanup_empty_collection|].
  split.
  - intros pre post k v -> Hv Hne. apply cleanup_dict_omits; assumption.
  - intros pre post v -> Hv. apply cleanup_list_nulls; assumption.
Qed.

Lemma cleanup_empty_collections_witness :
  _cleanup (PSet []) = PNone
  /\ _cleanup (PDict [("name", PStr "x"); ("tags", PList []); ("n", PInt 1)])
     = _cleanup (PDict [("name", PStr "x"); ("n", PInt 1)])
  /\ _cleanup (PList [PInt 1; PDict []; PInt 2])
     = PList [PInt 1; PNone; PInt 2].
Proof.
  split; [|split].
  - apply (cleanup_empty_collections (PSet [])). reflexivity.
  - apply (cleanup_empty_collections
             (PDict [("name", PStr "x"); ("tags", PList []); ("n", PInt 1)]))
      with (pre := [("name", PStr "x")]) (post := [("n", PInt 1)])
           (k := "tags") (v := PList []).
    + reflexivity.
    + reflexivity.
    + discriminate.
  - apply (cleanup_empty_collections (PList [PInt 1; PDict []; PInt 2]))
      with (pre := [PInt 1]) (post := [PInt 2]) (v := PDict []).
    + reflexivity.
    + reflexivity.
Defined.

(** C2 as stated fails: a mapping whose only entry normalises to nothing is
    kept as an empty mapping inside its parent, and an empty sequence inside
    a sequence is not left out but replaced by [None]. *)
Lemma cleanup_keeps_empty_mapping :
  _cleanup (PDict [("a", PDict [("b", PList [])])]) = PDict [("a", PDict [])]
  /\ free_of_empty_collections
       (_cleanup (PDict [("a", PDict [("b", PList [])])])) = false
  /\ _cleanup (PList [PInt 1; PList []]) = PList [PInt 1; PNone].
Proof.
  repeat split.
Qed.

(** C3, as amended: [_cleanup] returns [None], every boolean, every number
    and every string but the empty one unchanged; the empty string
    normalises to [None]. *)
Theorem cleanup_plain_scalar (v : pyval) :
  is_plain_scalar v = true ->
  (v = PStr "" -> _cleanup v = PNone) /\ (v <> PStr "" -> _cleanup v = v).
Proof.
  intros Hs. split.
  - intros ->. reflexivity.
  - intros Hne. destruct v; try discriminate Hs; try reflexivity.
    destruct s; [congruence | reflexivity].
Qed.

Lemma cleanup_plain_scalar_witness :
  _cleanup (PStr "1.2.3") = PStr "1.2.3" /\ _cleanup (PInt (-4)) = PInt (-4).
Proof.
  split.
  - apply (cleanup_plain_scalar (PStr "1.2.3")); [reflexivity | discriminate].
  - apply (cleanup_plain_scalar (PInt (-4))); [reflexivity | discriminate].
Defined.

(** C3 as stated fails on the empty string, which is a string and counts
    zero elements. *)
Lemma cleanup_empty_string_is_None :
  is_plain_scalar (PStr "") = true /\ _cleanup (PStr "") <> PStr "".
Proof.
  split; [reflexivity | discriminate].
Qed.

(** ** Rendering of identifiers *)

Lemma hex_digits_length (fuel : nat) :
  forall (n : Z) (acc : list ascii) (k : nat),
    (1 <= k)%nat -> 0 <= n < 16 ^ Z.of_nat k ->
    (List.length (hex_digits fuel n acc) <= k + List.length acc)%nat.
Proof.
  induction fuel as [|fuel IH]; intros n acc k Hk Hn; simpl.
  - lia.
  - destruct (Z.ltb_spec n 16) as [Hlt|Hge].
    + simpl. lia.
    + destruct k as [|[|k]]; [lia | change (16 ^ Z.of_nat 1) with 16 in Hn; lia |].
      specialize (IH (n / 16) (hex_digit (n mod 16) :: acc) (S k)).
      simpl List.length in IH.
      assert (0 <= n / 16 < 16 ^ Z.of_nat (S k)) as Hq.
      { split; [apply Z.div_pos; lia|].
        apply Z.div_lt_upper_bound; [lia|].
        replace (16 * 16 ^ Z.of_nat (S k)) with (16 ^ Z.of_nat (S (S k)));
          [lia|].
        rewrite (Nat2Z.inj_succ (S k)). rewrite Z.pow_succ_r by lia.
        reflexivity. }
      specialize (IH ltac:(lia) Hq). lia.
Qed.

Lemma format_032x_length (n : Z) :
  0 <= n < 2 ^ 128 -> List.length (format_032x n) = 32%nat.
Proof.
  intros Hn. unfold format_032x, format_x.
  rewrite length_app, repeat_length.
  pose proof (hex_digits_length (S (Z.to_nat (Z.log2 n))) n [] 32
                ltac:(lia) Hn) as Hlen.
  change (List.length (@nil ascii)) with 0%nat in Hlen. lia.
Qed.

Lemma string_of_list_ascii_length (l : list ascii) :
  String.length (string_of_list_ascii l) = List.length l.
Proof.
  induction l as [|c l IH]; simpl; [reflexivity | rewrite IH; reflexivity].
Qed.

(** The canonical form of an identifier: 36 characters, the hyphens after
    the groups of 8, 4, 4 and 4 digits. *)
Lemma str_UUID_canonical (u : UUID) :
  UUID_wf u ->
  String.length (str_UUID u) = 36%nat
  /\ String.get 8 (str_UUID u) = Some "-"%char
  /\ String.get 13 (str_UUID u) = Some "-"%char
  /\ String.get 18 (str_UUID u) = Some "-"%char
  /\ String.get 23 (str_UUID u) = Some "-"%char.
Proof.
  intros Hu. unfold str_UUID.
  pose proof (format_032x_length (uuid_int u) Hu) as Hlen.
  set (hex := format_032x (uuid_int u)) in *.
  do 32 (destruct hex as [|? hex]; [discriminate Hlen|]).
  destruct hex; [|discriminate Hlen].
  repeat split.
Qed.

Lemma cleanup_UUID (u : UUID) : _cleanup (PUUID u) = PStr (str_UUID u).
Proof. reflexivity. Qed.

(** Reading the digits back: the 32 characters around the hyphens are
    lower-case hexadecimal digits and spell the integer of the identifier. *)
Lemma hex_value_digit (d : Z) : 0 <= d < 16 -> hex_value (hex_digit d) = d.
Proof.
  intros Hd.
  assert (d = 0 \/ d = 1 \/ d = 2 \/ d = 3 \/ d = 4 \/ d = 5 \/ d = 6
          \/ d = 7 \/ d = 8 \/ d = 9 \/ d = 10 \/ d = 11 \/ d = 12
          \/ d = 13 \/ d = 14 \/ d = 15) as Hcases by lia.
  repeat (destruct Hcases as [->|Hcases]; [reflexivity|]).
  subst d. reflexivity.
Qed.

Lemma digits_value_snoc (l : list ascii) (c : ascii) :
  digits_value (l ++ [c]) = 16 * digits_value l + hex_value c.
Proof. unfold digits_value. rewrite fold_left_app. reflexivity. Qed.

Lemma hex_digits_value (fuel : nat) :
  forall (n : Z) (acc : list ascii),
    0 <= n < 16 ^ Z.of_nat fuel ->
    exists digits, hex_digits fuel n acc = digits ++ acc
                   /\ digits_value digits = n.
Proof.
  induction fuel as [|fuel IH]; intros n acc Hn.
  - change (16 ^ Z.of_nat 0) with 1 in Hn.
    exists []. split; [reflexivity|]. unfold digits_value. simpl. lia.
  - simpl hex_digits. destruct (Z.ltb_spec n 16) as [Hlt|Hge].
    + exists [hex_digit n]. split; [reflexivity|].
      unfold digits_value. simpl fold_left.
      rewrite hex_value_digit by lia. lia.
    + assert (0 <= n / 16 < 16 ^ Z.of_nat fuel) as Hq.
      { split; [apply Z.div_pos; lia|].
        apply Z.div_lt_upper_bound; [lia|].
        rewrite Nat2Z.inj_succ, Z.pow_succ_r in Hn by lia. lia. }
      destruct (IH (n / 16) (hex_digit (n mod 16) :: acc) Hq)
        as [digits [Heq Hval]].
      exists (digits ++ [hex_digit (n mod 16)]). split.
      * rewrite Heq, <- app_assoc. reflexivity.
      * rewrite digits_value_snoc, Hval.
        rewrite hex_value_digit by (apply Z.mod_pos_bound; lia).
        symmetry. apply Z.div_mod. lia.
Qed.

Lemma digits_value_zeros (k : nat) (l : list ascii) :
  digits_value (repeat "0"%char k ++ l) = digits_value l.
Proof.
  unfold digits_value. rewrite fold_left_app.
  assert (fold_left (fun acc c => 16 * acc + hex_value c)
            (repeat "0"%char k) 0 = 0) as ->; [|reflexivity].
  induction k as [|k IH]; [reflexivity | exact IH].
Qed.

Lemma format_032x_value (n : Z) :
  0 <= n -> digits_value (format_032x n) = n.
Proof.
  intros Hn. unfold format_032x, format_x. rewrite digits_value_zeros.
  destruct (hex_digits_value (S (Z.to_nat (Z.log2 n))) n []) as [d [Heq Hv]].
  - split; [exact Hn|].
    destruct (Z.eq_dec n 0) as [->|Hn0]; [reflexivity|].
    pose proof (Z.log2_spec n ltac:(lia)) as [_ Hup].
    pose proof (Z.log2_nonneg n) as Hlog.
    rewrite Nat2Z.inj_succ, Z2Nat.id by exact Hlog.
    eapply Z.lt_le_trans; [exact Hup|].
    apply Z.pow_le_mono_l. lia.
  - rewrite Heq, app_nil_r. exact Hv.
Qed.

Lemma hex_digit_lower (d : Z) :
  0 <= d < 16 -> is_lower_hex (hex_digit d) = true.
Proof.
  intros Hd.
  assert (d = 0 \/ d = 1 \/ d = 2 \/ d = 3 \/ d = 4 \/ d = 5 \/ d = 6
          \/ d = 7 \/ d = 8 \/ d = 9 \/ d = 10 \/ d = 11 \/ d = 12
          \/ d = 13 \/ d = 14 \/ d = 15) as Hcases by lia.
  repeat (destruct Hcases as [->|Hcases]; [reflexivity|]).
  subst d. reflexivity.
Qed.

Lemma hex_digits_lower (fuel : nat) :
  forall (n : Z) (acc : list ascii),
    0 <= n -> forallb is_lower_hex acc = true ->
    forallb is_lower_hex (hex_digits fuel n acc) = true.
Proof.
  induction fuel as [|fuel IH]; intros n acc Hn Hacc; simpl hex_digits.
  - exact Hacc.
  - destruct (Z.ltb_spec n 16) as [Hlt|Hge].
    + cbn [forallb]. rewrite hex_digit_lower by lia. exact Hacc.
    + apply IH.
      * apply Z.div_pos; lia.
      * cbn [forallb].
        rewrite hex_digit_lower by (apply Z.mod_pos_bound; lia). exact Hacc.
Qed.

Lemma format_032x_lower (n : Z) :
  0 <= n -> forallb is_lower_hex (format_032x n) = true.
Proof.
  intros Hn. unfold format_032x, format_x. rewrite forallb_app.
  rewrite (hex_digits_lower _ n [] Hn eq_refl), andb_true_r.
  induction (32 - List.length (hex_digits (S (Z.to_nat (Z.log2 n))) n []))%nat
    as [|k IH]; [reflexivity | exact IH].
Qed.

Lemma canonical_digits_str_UUID (u : UUID) :
  UUID_wf u -> canonical_digits (str_UUID u) = format_032x (uuid_int u).
Proof.
  intros Hu. unfold canonical_digits, str_UUID.
  rewrite list_ascii_of_string_of_list_ascii.
  pose proof (format_032x_length (uuid_int u) Hu) as Hlen.
  set (hex := format_032x (uuid_int u)) in *. clearbody hex.
  do 32 (destruct hex as [|? hex]; [discriminate Hlen|]).
  destruct hex; [|discriminate Hlen].
  reflexivity.
Qed.

(** ** Properties of the handlers *)

Lemma query_limit_default (args : multidict) :
  args_get args "limit" = None -> query_limit args = Ok 20.
Proof. intros H. unfold query_limit. rewrite H. reflexivity. Qed.

Lemma query_limit_clamped (args : multidict) (text : string) (n : Z) :
  args_get args "limit" = Some text -> int_of_str text = Some n -> 300 < n ->
  query_limit args = Ok 300.
Proof.
  intros Ha Hp Hn. unfold query_limit. rewrite Ha, Hp.
  destruct (Z.ltb_spec 300 n); [reflexivity | lia].
Qed.

Lemma query_limit_not_a_number (args : multidict) (text : string) :
  args_get args "limit" = Some text -> int_of_str text = None ->
  query_limit args = Raise (Uncaught ValueError).
Proof. intros Ha Hp. unfold query_limit. rewrite Ha, Hp. reflexivity. Qed.

(** C4 at its three inputs: without [limit] the query runs with 20 and
    [limit=500] runs with 300, but [limit=abc] leaves [PluginsAPI.get] by the
    [ValueError] of [int], which nothing catches: the client gets status 500,
    not a client error. *)
Theorem limit_abc_is_uncaught_ValueError
    (select : plugin_class -> dict -> Z -> store -> list Plugin) (db : store) :
  query_limit [] = Ok 20
  /\ query_limit [("limit", "500")] = Ok 300
  /\ PluginsAPI_get select [("limit", "abc")] db = Raise (Uncaught ValueError)
  /\ http_status (PluginsAPI_get select [("limit", "abc")] db) = 500
  /\ is_client_error
       (http_status (PluginsAPI_get select [("limit", "abc")] db)) = false.
Proof.
  repeat split.
Qed.

(** C10: a [limit] that parses as an integer of at most 300, zero and the
    negative ones included, is the limit the query runs with: there is no
    lower bound and no return to the default. *)
Theorem limit_at_most_300_used_verbatim
    (select : plugin_class -> dict -> Z -> store -> list Plugin)
    (args : multidict) (db : store) (text : string) (n : Z) :
  args_get args "limit" = Some text -> int_of_str text = Some n -> n <= 300 ->
  query_limit args = Ok n
  /\ PluginsAPI_get select args db
     = answer_plugins
         (if wants_spigot args
          then select SpigotPlugin (plugin_query args) n db
          else select GenericPlugin (plugin_query args) n db).
Proof.
  intros Ha Hp Hn.
  assert (query_limit args = Ok n) as Hl.
  { unfold query_limit. rewrite Ha, Hp.
    destruct (Z.ltb_spec 300 n); [lia | reflexivity]. }
  split; [exact Hl|].
  unfold PluginsAPI_get. rewrite Hl. reflexivity.
Qed.

Lemma limit_at_most_300_used_verbatim_witness :
  query_limit [("limit", "0")] = Ok 0
  /\ query_limit [("name", "x"); ("limit", "-5")] = Ok (-5).
Proof.
  split.
  - apply (limit_at_most_300_used_verbatim
             (fun _ _ _ db => db) [("limit", "0")] [] "0" 0);
      [reflexivity | reflexivity | lia].
  - apply (limit_at_most_300_used_verbatim
             (fun _ _ _ db => db) [("name", "x"); ("limit", "-5")] [] "-5" (-5));
      [reflexivity | reflexivity | lia].
Defined.

(** *** Unknown identifiers *)

(** C5 on the code: with no stored plugin under the identifier,
    [PluginAPI.get], [PluginAPI.delete] and [UpdatesAPI.get] answer 404;
    [PluginAPI.put] answers 404 when the document mapper takes the body or
    rejects it with [ValueError], and leaves by any other exception the
    mapper raises on the body (status 500); [UpdatesAPI.post] leaves by the
    [DoesNotExist] of [.get], which nothing turns into a 404: the client
    gets status 500. *)
Theorem unknown_plugin_id
    (update_of : dict -> exn + (Plugin -> Plugin))
    (identity : string) (plugin_id : UUID) (body : dict) (db : store) :
  objects_by_id plugin_id db = [] ->
  http_status (PluginAPI_get plugin_id db) = 404
  /\ http_status (fst (PluginAPI_delete plugin_id db)) = 404
  /\ http_status (UpdatesAPI_get plugin_id db) = 404
  /\ ((exists change, update_of body = inr change)
      \/ update_of body = inl ValueError ->
      http_status (fst (PluginAPI_put update_of plugin_id body db)) = 404)
  /\ (forall e : exn,
        update_of body = inl e -> e <> ValueError ->
        PluginAPI_put update_of plugin_id body db = (Raise (Uncaught e), db)
        /\ http_status (fst (PluginAPI_put update_of plugin_id body db))
           = 500)
  /\ UpdatesAPI_post identity plugin_id body db
     = (Raise (Uncaught DoesNotExist), db)
  /\ http_status (fst (UpdatesAPI_post identity plugin_id body db)) = 500.
Proof.
  intros Hno.
  unfold PluginAPI_get, PluginAPI_put, PluginAPI_delete, UpdatesAPI_get,
    UpdatesAPI_post, queryset_update, queryset_delete, get_or_404.
  rewrite Hno. cbn [first_or_404 queryset_get bind http_status fst List.length].
  split; [reflexivity|]. split; [reflexivity|]. split; [reflexivity|].
  split; [|split; [|split; reflexivity]].
  - intros [[change ->]| ->]; reflexivity.
  - intros e -> He. destruct e; try congruence; split; reflexivity.
Qed.

Lemma unknown_plugin_id_witness :
  UpdatesAPI_post "srv" (mkUUID 9) [("version", PStr "2.0")] []
  = (Raise (Uncaught DoesNotExist), [])
  /\ http_status (fst (UpdatesAPI_post "srv" (mkUUID 9)
                         [("version", PStr "2.0")] [])) = 500
  /\ http_status (UpdatesAPI_get (mkUUID 9) []) = 404
  /\ http_status (fst (PluginAPI_put example_mapper (mkUUID 9)
                         [("id", PStr "not-a-uuid")] [])) = 404
  /\ PluginAPI_put example_mapper (mkUUID 9) [] []
     = (Raise (Uncaught OperationError), []).
Proof.
  pose proof (unknown_plugin_id example_mapper "srv" (mkUUID 9)
                [("version", PStr "2.0")] [] eq_refl) as Hpost.
  pose proof (unknown_plugin_id example_mapper "srv" (mkUUID 9)
                [("id", PStr "not-a-uuid")] [] eq_refl) as Hbad.
  pose proof (unknown_plugin_id example_mapper "srv" (mkUUID 9)
                [] [] eq_refl) as Hnone.
  destruct Hpost as [_ [_ [Hlist [_ [_ [Hraise Hstatus]]]]]].
  destruct Hbad as [_ [_ [_ [Hcaught _]]]].
  destruct Hnone as [_ [_ [_ [_ [Hother _]]]]].
  split; [exact Hraise|]. split; [exact Hstatus|]. split; [exact Hlist|].
  split.
  - apply Hcaught. right. reflexivity.
  - apply (Hother OperationError); [reflexivity | discriminate].
Defined.

(** *** Creation *)

Lemma option_eqb_refl {A : Type} (eqb : A -> A -> bool) (a : option A) :
  (forall x, eqb x x = true) -> option_eqb eqb a a = true.
Proof. intros H. destruct a; simpl; auto. Qed.

Lemma filter_In_nonempty {A : Type} (f : A -> bool) (l : list A) (x : A) :
  In x l -> f x = true -> 0 < Z.of_nat (List.length (filter f l)).
Proof.
  intros Hin Hf.
  assert (In x (filter f l)) as H by (apply filter_In; split; assumption).
  destruct (filter f l); [destruct H | simpl; lia].
Qed.

Lemma post_duplicate (identity : string) (uuid4 : UUID) (args : multidict)
    (body : dict) (db : store) (stored : Plugin) :
  In stored db -> triple_of stored = requested_triple body ->
  PluginsAPI_post identity uuid4 args body db
  = (Ok (message "msg" "Document already exists.", 400), db).
Proof.
  intros Hin Htriple. unfold PluginsAPI_post.
  match goal with
  | |- (if 0 <? Z.of_nat (List.length (objects_by_triple ?p db))
        then _ else _) = _ =>
      assert (0 < Z.of_nat (List.length (objects_by_triple p db))) as Hdup
  end.
  { apply (filter_In_nonempty _ db stored Hin).
    unfold triple_of, requested_triple in Htriple.
    injection Htriple as Hn Hd Hu.
    unfold same_triple. rewrite Hn, Hd, Hu.
    destruct (wants_spigot args || dict_contains body "spigot_name")%bool;
      simpl; rewrite !option_eqb_refl by apply String.eqb_refl;
      reflexivity. }
  apply Z.ltb_lt in Hdup. rewrite Hdup. reflexivity.
Qed.

Lemma save_In (p : Plugin) (db : store) : In p (save p db).
Proof.
  unfold save. destruct (existsb (same_id p) db) eqn:E.
  - apply existsb_exists in E. destruct E as [q [Hq Hsame]].
    apply in_map_iff. exists q. rewrite Hsame. split; [reflexivity | exact Hq].
  - apply in_or_app. right. left. reflexivity.
Qed.

(** The same create request a second time, whatever identifier the server
    draws, is answered 400 once the first has answered 200. *)
Lemma create_twice (identity : string) (first second : UUID)
    (args : multidict) (body : dict) (db : store) :
  http_status (fst (PluginsAPI_post identity first args body db)) = 200 ->
  PluginsAPI_post identity second args body
    (snd (PluginsAPI_post identity first args body db))
  = (Ok (message "msg" "Document already exists.", 400),
     snd (PluginsAPI_post identity first args body db)).
Proof.
  intros Hfirst.
  unfold PluginsAPI_post in Hfirst |- * at 2 3.
  match type of Hfirst with
  | context [if ?c then _ else _] => destruct c
  end; [discriminate Hfirst|]. cbn [snd].
  match goal with
  | |- context [save ?p db] =>
      apply (post_duplicate identity second args body (save p db) p)
  end.
  - apply save_In.
  - destruct (wants_spigot args || dict_contains body "spigot_name")%bool;
      reflexivity.
Qed.

(** C6: when a stored plugin has the name, description and download URL of
    the create request, [PluginsAPI.post] answers 400 and the collection is
    what it was. *)
Theorem create_duplicate_is_rejected (identity : string) (uuid4 : UUID)
    (args : multidict) (body : dict) (db : store) :
  (exists stored, In stored db /\ triple_of stored = requested_triple body) ->
  PluginsAPI_post identity uuid4 args body db
  = (Ok (message "msg" "Document already exists.", 400), db)
  /\ http_status (fst (PluginsAPI_post identity uuid4 args body db)) = 400
  /\ snd (PluginsAPI_post identity uuid4 args body db) = db.
Proof.
  intros [stored [Hin Htriple]].
  rewrite (post_duplicate identity uuid4 args body db stored Hin Htriple).
  repeat split.
Qed.

Lemma create_duplicate_is_rejected_witness :
  PluginsAPI_post "srv" (mkUUID 2) []
    [("name", PStr "X"); ("description", PStr "Y"); ("download_url", PStr "Z")]
    [essentials]
  = (Ok (message "msg" "Document already exists.", 400), [essentials]).
Proof.
  apply (create_duplicate_is_rejected "srv" (mkUUID 2) []
           [("name", PStr "X"); ("description", PStr "Y");
            ("download_url", PStr "Z")] [essentials]).
  exists essentials. split; [left; reflexivity | reflexivity].
Defined.

(** *** Appending an update *)

Lemma UUID_eqb_eq (a b : UUID) : UUID_eqb a b = true <-> a = b.
Proof.
  destruct a as [x], b as [y]. unfold UUID_eqb. simpl.
  rewrite Z.eqb_eq. split; [intros ->; reflexivity | congruence].
Qed.

Lemma has_id_spec (plugin_id : UUID) (p : Plugin) :
  has_id plugin_id p = true <-> id p = Some plugin_id.
Proof.
  unfold has_id. destruct (id p) as [u|]; simpl.
  - rewrite UUID_eqb_eq. split; congruence.
  - split; discriminate.
Qed.

Lemma same_id_has_id (plugin_id : UUID) (p q : Plugin) :
  id p = Some plugin_id -> same_id p q = has_id plugin_id q.
Proof. intros Hp. unfold same_id, has_id. rewrite Hp. reflexivity. Qed.

Lemma queryset_get_Ok (matching : list Plugin) (p : Plugin) :
  queryset_get matching = Ok p -> matching = [p].
Proof.
  destruct matching as [|q [|r rest]]; simpl; intros H;
    try discriminate. congruence.
Qed.

Lemma filter_map_replace (plugin_id : UUID) (p' : Plugin) (db : store) :
  has_id plugin_id p' = true ->
  filter (has_id plugin_id)
         (map (fun q => if has_id plugin_id q then p' else q) db)
  = map (fun _ => p') (filter (has_id plugin_id) db).
Proof.
  intros Hp'. induction db as [|q db IH]; simpl.
  - reflexivity.
  - destruct (has_id plugin_id q) eqn:Hq; simpl.
    + rewrite Hp'. rewrite IH. reflexivity.
    + rewrite Hq. exact IH.
Qed.

Lemma save_replaces (plugin_id : UUID) (p p' : Plugin) (db : store) :
  objects_by_id plugin_id db = [p] -> id p' = Some plugin_id ->
  save p' db = map (fun q => if has_id plugin_id q then p' else q) db
  /\ objects_by_id plugin_id (save p' db) = [p'].
Proof.
  intros Hone Hid'.
  assert (In p db /\ has_id plugin_id p = true) as [Hin Hp].
  { apply filter_In. unfold objects_by_id in Hone. rewrite Hone.
    left. reflexivity. }
  assert (save p' db = map (fun q => if has_id plugin_id q then p' else q) db)
    as Hsave.
  { unfold save.
    assert (existsb (same_id p') db = true) as ->.
    { apply existsb_exists. exists p. split; [exact Hin|].
      rewrite (same_id_has_id plugin_id p' p Hid'). exact Hp. }
    apply map_ext. intros q.
    rewrite (same_id_has_id plugin_id p' q Hid'). reflexivity. }
  split; [exact Hsave|].
  rewrite Hsave. unfold objects_by_id.
  rewrite filter_map_replace by (apply has_id_spec; exact Hid').
  unfold objects_by_id in Hone. rewrite Hone. reflexivity.
Qed.

(** C7: an append on an existing plugin builds the update from the body,
    sets its server identifier to the identity of the caller whatever the
    body gave, puts it at the end of the updates of the plugin and saves the
    plugin: the answer is 200, and the one plugin stored under the
    identifier afterwards has the former updates followed by that update as
    its updates and every other field as before. *)
Theorem append_sets_server_id_and_appends (identity : string)
    (plugin_id : UUID) (body : dict) (db : store) (plugin : Plugin) :
  queryset_get (objects_by_id plugin_id db) = Ok plugin ->
  exists (plugin_update : PluginUpdate) (stored : Plugin),
    server_id plugin_update = Some identity
    /\ update_fields plugin_update = update_fields (PluginUpdate_init body)
    /\ updates stored = updates plugin ++ [plugin_update]
    /\ cls stored = cls plugin
    /\ id stored = Some plugin_id
    /\ name stored = name plugin
    /\ description stored = description plugin
    /\ download_url stored = download_url plugin
    /\ variant_fields stored = variant_fields plugin
    /\ UpdatesAPI_post identity plugin_id body db
       = (Ok (PStr "", 200), save stored db)
    /\ objects_by_id plugin_id
         (snd (UpdatesAPI_post identity plugin_id body db))
       = [stored].
Proof.
  intros Hget.
  exists (set_server_id (PluginUpdate_init body) identity).
  exists (set_updates plugin
            (updates plugin
             ++ [set_server_id (PluginUpdate_init body) identity])).
  assert (id plugin = Some plugin_id) as Hid.
  { apply has_id_spec.
    assert (In plugin (objects_by_id plugin_id db)) as Hin
      by (rewrite (queryset_get_Ok _ _ Hget); left; reflexivity).
    apply filter_In in Hin. apply Hin. }
  split; [reflexivity|]. split; [reflexivity|]. split; [reflexivity|].
  split; [reflexivity|]. split; [exact Hid|]. split; [reflexivity|].
  split; [reflexivity|]. split; [reflexivity|]. split; [reflexivity|].
  assert (UpdatesAPI_post identity plugin_id body db
          = (Ok (PStr "", 200),
             save (set_updates plugin
                     (updates plugin
                      ++ [set_server_id (PluginUpdate_init body) identity]))
                  db)) as Hpost.
  { unfold UpdatesAPI_post. rewrite Hget. reflexivity. }
  split; [exact Hpost|].
  rewrite Hpost. cbn [snd].
  apply queryset_get_Ok in Hget.
  apply (save_replaces plugin_id plugin); [exact Hget | exact Hid].
Qed.

Lemma append_sets_server_id_and_appends_witness :
  UpdatesAPI_post "srv" (mkUUID 1)
    [("version", PStr "2.0"); ("server_id", PStr "forged")]
    [{| cls := GenericPlugin; id := Some (mkUUID 1);
        name := Some "X"; description := Some "Y"; download_url := Some "Z";
        variant_fields := [];
        updates := [{| update_fields := [("version", PStr "1.0")];
                       server_id := Some "old" |}] |}]
  = (Ok (PStr "", 200),
     [{| cls := GenericPlugin; id := Some (mkUUID 1);
         name := Some "X"; description := Some "Y"; download_url := Some "Z";
         variant_fields := [];
         updates := [{| update_fields := [("version", PStr "1.0")];
                        server_id := Some "old" |};
                     {| update_fields := [("version", PStr "2.0")];
                        server_id := Some "srv" |}] |}]).
Proof.
  destruct (append_sets_server_id_and_appends "srv" (mkUUID 1)
              [("version", PStr "2.0"); ("server_id", PStr "forged")]
              [essentials_with_update] essentials_with_update eq_refl)
    as [[fields sid] [[c i n d u v us]
         [Hs [Hf [Hus [Hc [Hi [Hn [Hd [Hu [Hv [Hpost _]]]]]]]]]]]].
  cbn in Hs, Hf, Hus, Hc, Hi, Hn, Hd, Hu, Hv. subst.
  exact Hpost.
Defined.

(** *** The keyword filter *)

Section DictLemmas.
Context {V : Type}.
Implicit Types (d l : list (string * V)) (k : string).

Lemma dict_get_set d k (v : V) k' :
dict_get (dict_set d k v) k'
= if String.eqb k k' then Some v else dict_get d k'.
Proof.
induction d as [|[k0 v0] rest IH]; simpl.
- reflexivity.
- destruct (String.eqb_spec k0 k) as [->|Hne]; simpl.
  + destruct (String.eqb k k'); reflexivity.
  + rewrite IH. destruct (String.eqb_spec k0 k') as [->|Hne'].
    * destruct (String.eqb_spec k k'); [congruence | reflexivity].
    * reflexivity.
Qed.

Lemma dict_get_None d k : ~ In k (map fst d) -> dict_get d k = None.
Proof.
induction d as [|[k0 v0] rest IH]; simpl; intros Hk.
- reflexivity.
- destruct (String.eqb_spec k0 k) as [->|Hne].
  + exfalso. apply Hk. left. reflexivity.
  + apply IH. intros Hin. apply Hk. right. exact Hin.
Qed.

Lemma dict_get_stored l d k :
NoDup (map fst l) ->
dict_get (fold_left (fun acc kv => dict_set acc (fst kv) (snd kv)) l d) k
= match dict_get l k with
  | Some v => Some v
  | None => dict_get d k
  end.
Proof.
revert d. induction l as [|[k0 v0] rest IH]; intros d Hnd; simpl.
- reflexivity.
- inversion Hnd as [|? ? Hnotin Hrest]; subst.
  rewrite IH by exact Hrest. rewrite dict_get_set.
  destruct (String.eqb_spec k0 k) as [->|Hne].
  + rewrite (dict_get_None rest k Hnotin). reflexivity.
  + reflexivity.
Qed.

Lemma dict_get_filter (keep : string -> bool) l k :
dict_get (filter (fun kv => keep (fst kv)) l) k
= if keep k then dict_get l k else None.
Proof.
induction l as [|[k0 v0] rest IH]; simpl.
- destruct (keep k); reflexivity.
- destruct (keep k0) eqn:Hk0; simpl.
  + destruct (String.eqb_spec k0 k) as [->|Hne].
    * rewrite Hk0. reflexivity.
    * exact IH.
  + destruct (String.eqb_spec k0 k) as [->|Hne].
    * rewrite Hk0 in IH |- *. exact IH.
    * exact IH.
Qed.

Lemma filter_keys_NoDup (f : string * V -> bool) l :
NoDup (map fst l) -> NoDup (map fst (filter f l)).
Proof.
induction l as [|kv rest IH]; simpl; intros Hnd.
- constructor.
- inversion Hnd as [|? ? Hnotin Hrest]; subst.
  destruct (f kv); simpl; [|apply IH; exact Hrest].
  constructor; [|apply IH; exact Hrest].
  intros Hin. apply Hnotin.
  apply in_map_iff in Hin. destruct Hin as [e [He Hin]].
  apply filter_In in Hin. apply in_map_iff. exists e.
  split; [exact He | apply Hin].
Qed.

End DictLemmas.

Lemma dict_get_map_values {V W : Type} (g : V -> W) (l : list (string * V))
    (k : string) :
  dict_get (map (fun kv => (fst kv, g (snd kv))) l) k
  = option_map g (dict_get l k).
Proof.
  induction l as [|[k0 v0] rest IH]; simpl.
  - reflexivity.
  - destruct (String.eqb k0 k); [reflexivity | exact IH].
Qed.

Lemma store_mapped {V W : Type} (g : V -> W) (l : list (string * V))
    (acc : list (string * W)) :
  fold_left (fun acc kv => dict_set acc (fst kv) (g (snd kv))) l acc
  = fold_left (fun acc kv => dict_set acc (fst kv) (snd kv))
              (map (fun kv => (fst kv, g (snd kv))) l) acc.
Proof.
  revert acc. induction l as [|kv rest IH]; intros acc; simpl.
  - reflexivity.
  - apply IH.
Qed.

Lemma store_booleans (d acc : dict) :
  fold_left
    (fun acc kv =>
       match snd kv with
       | PStr v =>
           if is_boolean_word v
           then dict_set acc (fst kv) (PBool (String.eqb (lower v) "true"))
           else acc
       | _ => acc
       end) d acc
  = fold_left (fun acc kv => dict_set acc (fst kv) (snd kv))
              (boolean_entries d) acc.
Proof.
  revert acc. induction d as [|[k v] rest IH]; intros acc; simpl.
  - reflexivity.
  - rewrite fold_left_app. rewrite IH.
    destruct v; simpl; try reflexivity.
    destruct (is_boolean_word s); reflexivity.
Qed.

Lemma boolean_entries_keys (d : dict) (k : string) :
  In k (map fst (boolean_entries d)) -> In k (map fst d).
Proof.
  induction d as [|[k0 v0] rest IH]; simpl; [auto|].
  rewrite map_app, in_app_iff. intros [H|H].
  - destruct (boolean_entry v0); simpl in H; [|destruct H].
    destruct H as [H|[]]. left. exact H.
  - right. apply IH. exact H.
Qed.

Lemma boolean_entries_NoDup (d : dict) :
  NoDup (map fst d) -> NoDup (map fst (boolean_entries d)).
Proof.
  induction d as [|[k0 v0] rest IH]; simpl; intros Hnd.
  - constructor.
  - inversion Hnd as [|? ? Hnotin Hrest]; subst.
    rewrite map_app. destruct (boolean_entry v0); simpl.
    + constructor; [|apply IH; exact Hrest].
      intros Hin. apply Hnotin. apply boolean_entries_keys. exact Hin.
    + apply IH. exact Hrest.
Qed.

Lemma dict_get_boolean_entries (d : dict) (k : string) :
  NoDup (map fst d) ->
  dict_get (boolean_entries d) k
  = match dict_get d k with
    | Some v => boolean_entry v
    | None => None
    end.
Proof.
  induction d as [|[k0 v0] rest IH]; simpl; intros Hnd.
  - reflexivity.
  - inversion Hnd as [|? ? Hnotin Hrest]; subst.
    destruct (String.eqb_spec k0 k) as [->|Hne].
    + destruct (boolean_entry v0); simpl.
      * rewrite String.eqb_refl. reflexivity.
      * apply dict_get_None. intros Hin. apply Hnotin.
        apply boolean_entries_keys. exact Hin.
    + destruct (boolean_entry v0); simpl.
      * destruct (String.eqb_spec k0 k); [congruence|]. apply IH, Hrest.
      * apply IH, Hrest.
Qed.

(** [args.items()] has every key once, under its first value. *)
Lemma items_unseen_spec (args : multidict) :
  forall seen : list string,
    NoDup (map fst (items_unseen seen args))
    /\ (forall k, In k (map fst (items_unseen seen args)) ->
                  existsb (String.eqb k) seen = false)
    /\ (forall k, dict_get (items_unseen seen args) k
                  = if existsb (String.eqb k) seen then None
                    else dict_get args k).
Proof.
  induction args as [|[k0 v0] rest IH]; intros seen; simpl.
  - repeat split; [constructor | intros k [] |].
    intros k. destruct (existsb (String.eqb k) seen); reflexivity.
  - destruct (existsb (String.eqb k0) seen) eqn:Hseen.
    + destruct (IH seen) as [Hnd [Hkeys Hget]].
      repeat split; [exact Hnd | exact Hkeys |].
      intros k. rewrite Hget.
      destruct (String.eqb_spec k0 k) as [->|Hne]; [|reflexivity].
      rewrite Hseen. reflexivity.
    + destruct (IH (k0 :: seen)) as [Hnd [Hkeys Hget]]. simpl.
      repeat split.
      * constructor; [|exact Hnd].
        intros Hin. specialize (Hkeys k0 Hin). simpl in Hkeys.
        rewrite String.eqb_refl in Hkeys. discriminate.
      * intros k [<-|Hin]; [exact Hseen|].
        specialize (Hkeys k Hin). simpl in Hkeys.
        apply orb_false_elim in Hkeys. apply Hkeys.
      * intros k. rewrite Hget. simpl.
        rewrite (String.eqb_sym k k0).
        destruct (String.eqb_spec k0 k) as [->|Hne]; simpl.
        -- rewrite Hseen. reflexivity.
        -- reflexivity.
Qed.

Lemma plugin_query_first_pass (args : multidict) :
  fold_left (fun acc kv => dict_set acc (fst kv) (PStr (snd kv)))
    (filter (fun kv => negb (String.eqb (fst kv) "limit")
                       && negb (String.eqb (fst kv) "type"))%bool
            (args_items args))
    []
  = map (fun kv => (fst kv, PStr (snd kv)))
        (filter (fun kv => is_filter_key (fst kv)) (args_items args)).
Proof.
  rewrite (store_mapped PStr).
  apply (store_distinct _ []). simpl.
  rewrite map_map. simpl.
  apply (filter_keys_NoDup (fun kv => is_filter_key (fst kv))).
  apply (items_unseen_spec args []).
Qed.

Lemma plugin_query_get (args : multidict) (k : string) :
  dict_get (plugin_query args) k
  = if is_filter_key k then option_map coerced (args_get args k) else None.
Proof.
  unfold plugin_query. rewrite plugin_query_first_pass.
  set (first := map (fun kv => (fst kv, PStr (snd kv)))
                    (filter (fun kv => is_filter_key (fst kv))
                            (args_items args))).
  assert (NoDup (map fst first)) as Hnd.
  { subst first. rewrite map_map. simpl.
    apply (filter_keys_NoDup (fun kv => is_filter_key (fst kv))).
    apply (items_unseen_spec args []). }
  assert (dict_get first k
          = if is_filter_key k then option_map PStr (args_get args k)
            else None) as Hfirst.
  { subst first. rewrite (dict_get_map_values PStr).
    rewrite (dict_get_filter is_filter_key).
    destruct (is_filter_key k); [|reflexivity].
    destruct (items_unseen_spec args []) as [_ [_ Hget]].
    unfold args_items. rewrite Hget. reflexivity. }
  rewrite store_booleans.
  rewrite (store_distinct (boolean_entries first) [])
    by (apply boolean_entries_NoDup; exact Hnd).
  simpl app. unfold dict_update.
  rewrite dict_get_stored by (apply boolean_entries_NoDup; exact Hnd).
  rewrite (dict_get_boolean_entries first k Hnd). rewrite Hfirst.
  destruct (is_filter_key k); [|reflexivity].
  destruct (args_get args k) as [v|]; [|reflexivity].
  simpl. unfold coerced, is_boolean_word.
  destruct (String.eqb (lower v) "true") eqn:Et; [reflexivity|].
  destruct (String.eqb (lower v) "false") eqn:Ef; reflexivity.
Qed.

(** C8: the keyword filter has no entry for [limit] and none for [type];
    every other query parameter is in it under its own name, as [True] or
    [False] when its value read in lower case is "true" or "false", and as
    the string it came with otherwise; and it has no other entry. *)
Theorem plugin_query_filter (args : multidict) :
  dict_get (plugin_query args) "limit" = None
  /\ dict_get (plugin_query args) "type" = None
  /\ forall k, k <> "limit" -> k <> "type" ->
       dict_get (plugin_query args) k = option_map coerced (args_get args k).
Proof.
  split; [rewrite plugin_query_get; reflexivity|].
  split; [rewrite plugin_query_get; reflexivity|].
  intros k Hl Ht. rewrite plugin_query_get. unfold is_filter_key.
  apply String.eqb_neq in Hl, Ht. rewrite Hl, Ht. reflexivity.
Qed.

Lemma plugin_query_filter_witness :
  dict_get (plugin_query [("limit", "5"); ("premium", "TRUE"); ("name", "x")])
           "premium" = Some (PBool true)
  /\ dict_get (plugin_query [("limit", "5"); ("premium", "TRUE"); ("name", "x")])
              "name" = Some (PStr "x").
Proof.
  destruct (plugin_query_filter
              [("limit", "5"); ("premium", "TRUE"); ("name", "x")])
    as [_ [_ H]].
  split.
  - rewrite (H "premium"); [reflexivity | discriminate | discriminate].
  - rewrite (H "name"); [reflexivity | discriminate | discriminate].
Defined.

(** ** Rendering of timestamps *)

Lemma total_microseconds_since_epoch (t : datetime) :
  total_microseconds (datetime_sub t EPOCH) = microseconds_since_epoch t.
Proof.
  unfold total_microseconds, datetime_sub, new_timedelta,
    microseconds_since_epoch. simpl.
  set (total := ((toordinal t - toordinal EPOCH) * 86400
                 + (second t + minute t * 60 + hour t * 3600 - 0)) * 1000000
                + (microsecond t - 0)).
  replace (((toordinal t - toordinal EPOCH) * 86400
            + (second t + minute t * 60 + hour t * 3600)) * 1000000
           + microsecond t) with total by (subst total; lia).
  generalize total. clear. intros T.
  Z.to_euclidean_division_equations. lia.
Qed.

Lemma cleanup_datetime (t : datetime) :
  _cleanup (PDatetime t)
  = PInt (int_of_float (true_div (microseconds_since_epoch t) (10 ^ 6))).
Proof.
  simpl. unfold total_seconds. rewrite total_microseconds_since_epoch.
  reflexivity.
Qed.

(** The division agrees with the interpreter on quotients that round down,
    round up and tie, written as significand and exponent. *)
Example true_div_samples :
  true_div 1 3 = {| mant := 6004799503160661; expo := -54 |}
  /\ true_div 10 4 = {| mant := 5629499534213120; expo := -51 |}
  /\ true_div (2 ^ 53 + 1) 1 = {| mant := 4503599627370496; expo := 1 |}
  /\ true_div 1 (10 ^ 6) = {| mant := 4722366482869645; expo := -72 |}
  /\ true_div 253402300799999999 (10 ^ 6)
     = {| mant := 8303486592614400; expo := -15 |}.
Proof.
  repeat split; vm_compute; reflexivity.
Qed.

Lemma round_half_even_bounds (num den : Z) :
  0 <= num -> 0 < den ->
  num / den <= round_half_even num den <= num / den + 1.
Proof.
  intros Hn Hd. unfold round_half_even.
  destruct (2 * (num mod den) <? den); [lia|].
  destruct (den <? 2 * (num mod den)); [lia|].
  destruct (Z.even (num / den)); lia.
Qed.

Lemma round_half_even_nonneg (num den : Z) :
  0 <= num -> 0 < den -> 0 <= round_half_even num den.
Proof.
  intros Hn Hd. pose proof (round_half_even_bounds num den Hn Hd).
  pose proof (Z.div_pos num den Hn Hd). lia.
Qed.

Lemma int_of_float_nonneg (x : float64) :
  0 <= mant x -> 0 <= int_of_float x.
Proof.
  intros Hm. unfold int_of_float.
  destruct (Z.leb_spec 0 (expo x)) as [He|He].
  - apply Z.mul_nonneg_nonneg; [exact Hm | apply Z.pow_nonneg; lia].
  - apply Z.quot_pos; [exact Hm | apply Z.pow_pos_nonneg; lia].
Qed.

Lemma nearest_float_nonneg (n d : Z) :
  0 <= n -> 0 < d -> 0 <= mant (nearest_float n d).
Proof.
  intros Hn Hd. unfold nearest_float. simpl.
  set (e := Z.max (binade n d - 52) (-1074)).
  destruct (Z.leb_spec 0 e) as [He|He].
  - apply round_half_even_nonneg; [exact Hn|].
    apply Z.mul_pos_pos; [exact Hd | apply Z.pow_pos_nonneg; lia].
  - apply round_half_even_nonneg; [|exact Hd].
    apply Z.mul_nonneg_nonneg; [exact Hn | apply Z.pow_nonneg; lia].
Qed.

(** A timestamp at or after [EPOCH] is never rendered as a negative
    number. *)
Lemma cleanup_datetime_nonneg (t : datetime) :
  0 <= microseconds_since_epoch t ->
  exists n, _cleanup (PDatetime t) = PInt n /\ 0 <= n.
Proof.
  intros Hus. rewrite cleanup_datetime. eexists. split; [reflexivity|].
  apply int_of_float_nonneg. unfold true_div.
  destruct (Z.eqb_spec (microseconds_since_epoch t) 0) as [H0|Hn0];
    [simpl; lia|].
  destruct (Z.ltb_spec 0 (microseconds_since_epoch t)) as [Hpos|Hneg];
    [|lia].
  apply nearest_float_nonneg; lia.
Qed.

Lemma days_before_month_nonneg (y m : Z) :
  1 <= m <= 12 -> 0 <= _days_before_month y m.
Proof.
  intros Hm. unfold _days_before_month.
  assert (0 <= nth (Z.to_nat m) _DAYS_BEFORE_MONTH 0) as Hnth.
  { assert (m = 1 \/ m = 2 \/ m = 3 \/ m = 4 \/ m = 5 \/ m = 6 \/ m = 7
            \/ m = 8 \/ m = 9 \/ m = 10 \/ m = 11 \/ m = 12) as Hcases by lia.
    repeat (destruct Hcases as [->|Hcases]; [vm_compute; discriminate|]).
    subst m. vm_compute. discriminate. }
  set (before := nth (Z.to_nat m) _DAYS_BEFORE_MONTH 0) in *.
  clearbody before. destruct (2 <? m), (_is_leap y); simpl; lia.
Qed.

(** A well-formed timestamp of the year 1970 or later is at or after
    [EPOCH]. *)
Lemma since_1970_nonneg (t : datetime) :
  datetime_wf t -> 1970 <= year t -> 0 <= microseconds_since_epoch t.
Proof.
  intros (Hy & Hm & Hd & Hh & Hmin & Hs & Hus) Hyear.
  unfold microseconds_since_epoch.
  change (toordinal EPOCH) with 719163.
  assert (719163 <= toordinal t) as Hord.
  { unfold toordinal.
    pose proof (days_before_month_nonneg (year t) (month t) Hm).
    assert (719162 <= _days_before_year (year t)).
    { unfold _days_before_year. Z.to_euclidean_division_equations. lia. }
    lia. }
  lia.
Qed.

Lemma binade_below (n B : Z) :
  0 <= B -> 0 < n < 2 ^ B * 10 ^ 6 -> binade n (10 ^ 6) < B.
Proof.
  intros HB [Hpos Hlt]. unfold binade.
  change (Z.log2 (10 ^ 6)) with 19. change (10 ^ 6) with 1000000 in *.
  assert (0 < 2 ^ B) as Hpow by (apply Z.pow_pos_nonneg; lia).
  assert (Z.log2 n < B + 20) as Hlog.
  { apply Z.log2_lt_pow2; [exact Hpos|].
    rewrite Z.pow_add_r by lia. change (2 ^ 20) with 1048576. lia. }
  set (k := Z.log2 n - 19) in *.
  assert (k < B \/ k = B) as [Hk|Hk] by lia.
  - destruct (0 <=? k);
      [destruct (1000000 * 2 ^ k <=? n)
      | destruct (1000000 <=? n * 2 ^ (- k))]; lia.
  - rewrite Hk. destruct (Z.leb_spec 0 B) as [_|Hneg]; [|lia].
    destruct (Z.leb_spec (1000000 * 2 ^ B) n); lia.
Qed.

(** The rounded significand, cut back to whole seconds, is the whole seconds
    of the quotient as long as rounding up cannot reach the next second. *)
Lemma round_scaled_int (n s : Z) :
  0 <= n -> 0 < s -> 500000 < (1000000 - n mod 1000000) * s ->
  round_half_even (n * s) 1000000 / s = n / 1000000.
Proof.
  intros Hn Hs Hroom.
  set (q := n / 1000000). set (r := n mod 1000000) in *.
  pose proof (Z.div_mod n 1000000 ltac:(lia)) as Hnq.
  pose proof (Z.mod_pos_bound n 1000000 ltac:(lia)) as Hr.
  fold q r in Hnq, Hr. clearbody q r.
  assert (n * s = r * s + q * s * 1000000) as -> by (rewrite Hnq; ring).
  rewrite Z.mul_sub_distr_r in Hroom.
  assert (0 <= r * s) as Hrs by (apply Z.mul_nonneg_nonneg; lia).
  set (P := r * s) in *. clearbody P.
  unfold round_half_even.
  rewrite Z.div_add, Z.mod_add by lia.
  pose proof (Z.div_mod P 1000000 ltac:(lia)) as HP.
  pose proof (Z.mod_pos_bound P 1000000 ltac:(lia)) as Hu.
  set (t := P / 1000000) in *. set (u := P mod 1000000) in *.
  clearbody t u.
  assert (0 <= t < s) as Ht by lia.
  assert (1000000 <= 2 * u -> t + 1 < s) as Hup by lia.
  symmetry.
  destruct (Z.ltb_spec (2 * u) 1000000) as [H1|H1].
  - apply (Z.div_unique _ s q t); [left|]; lia.
  - destruct (1000000 <? 2 * u), (Z.even (t + q * s));
      try (apply (Z.div_unique _ s q (t + 1)); [left|]; lia).
    apply (Z.div_unique _ s q t); [left|]; lia.
Qed.

(** Below [2 ** B] seconds the significand has at least [53 - B] bits after
    the point. *)
Lemma nearest_float_int (n B : Z) :
  0 <= B <= 52 -> 0 < n < 2 ^ B * 10 ^ 6 ->
  500000 < (1000000 - n mod 1000000) * 2 ^ (53 - B) ->
  int_of_float (nearest_float n (10 ^ 6)) = n / 10 ^ 6.
Proof.
  intros HB Hn Hroom.
  pose proof (binade_below n B ltac:(lia) Hn) as Hb.
  unfold nearest_float, int_of_float. cbv zeta. cbn [mant expo].
  set (e := Z.max (binade n (10 ^ 6) - 52) (-1074)).
  assert (-1074 <= e <= B - 53) as He by (subst e; lia).
  destruct (Z.leb_spec 0 e) as [Hge|_]; [lia|].
  set (p := - e). assert (53 - B <= p) as Hp by (subst p; lia).
  change (10 ^ 6) with 1000000.
  assert (0 < 2 ^ p) as Hs by (apply Z.pow_pos_nonneg; lia).
  assert (2 ^ (53 - B) <= 2 ^ p) as Hmono by (apply Z.pow_le_mono_r; lia).
  pose proof (Z.mod_pos_bound n 1000000 ltac:(lia)) as Hr.
  assert (500000 < (1000000 - n mod 1000000) * 2 ^ p) as Hroom'.
  { eapply Z.lt_le_trans; [exact Hroom|].
    apply Z.mul_le_mono_nonneg_l; [lia | exact Hmono]. }
  rewrite Z.quot_div_nonneg;
    [| apply round_half_even_nonneg;
       [apply Z.mul_nonneg_nonneg; lia | lia]
     | exact Hs].
  apply round_scaled_int; [lia | exact Hs | exact Hroom'].
Qed.

Lemma int_of_float_opp (x : float64) :
  int_of_float {| mant := - mant x; expo := expo x |} = - int_of_float x.
Proof.
  unfold int_of_float. cbn [mant expo].
  destruct (Z.leb_spec 0 (expo x)) as [He|He].
  - apply Z.mul_opp_l.
  - apply Z.quot_opp_l.
    apply Z.neq_sym, Z.lt_neq, Z.pow_pos_nonneg; lia.
Qed.

Lemma true_div_int (n B : Z) :
  0 <= B <= 52 -> Z.abs n < 2 ^ B * 10 ^ 6 ->
  500000 < (1000000 - Z.abs n mod 1000000) * 2 ^ (53 - B) ->
  int_of_float (true_div n (10 ^ 6)) = Z.quot n (10 ^ 6).
Proof.
  intros HB Hn Hroom. unfold true_div.
  destruct (Z.eqb_spec n 0) as [->|Hn0]; [reflexivity|].
  destruct (Z.ltb_spec 0 n) as [Hpos|Hneg].
  - rewrite Z.abs_eq in Hn, Hroom by lia.
    rewrite (nearest_float_int n B) by (try assumption; lia).
    symmetry. apply Z.quot_div_nonneg; [lia | reflexivity].
  - rewrite Z.abs_neq in Hn, Hroom by lia.
    cbv zeta. rewrite int_of_float_opp.
    rewrite (nearest_float_int (- n) B) by (try assumption; lia).
    rewrite <- (Z.quot_div_nonneg (- n) (10 ^ 6)) by (try reflexivity; lia).
    rewrite Z.quot_opp_l by discriminate. lia.
Qed.

(** Within [2 ** 34] seconds of [EPOCH], from 1425 to 2514, a timestamp is
    rendered as its whole seconds from [EPOCH], cut towards zero. *)
Lemma cleanup_datetime_near_epoch (t : datetime) :
  Z.abs (microseconds_since_epoch t) < 2 ^ 34 * 10 ^ 6 ->
  _cleanup (PDatetime t)
  = PInt (Z.quot (microseconds_since_epoch t) (10 ^ 6)).
Proof.
  intros Hrange. rewrite cleanup_datetime.
  rewrite (true_div_int _ 34); [reflexivity | lia | exact Hrange |].
  pose proof (Z.mod_pos_bound (Z.abs (microseconds_since_epoch t)) 1000000
                ltac:(lia)).
  change (2 ^ (53 - 34)) with 524288. lia.
Qed.

Lemma days_in_month_le_31 (y m : Z) : _days_in_month y m <= 31.
Proof.
  unfold _days_in_month.
  destruct ((m =? 2) && _is_leap y)%bool; [lia|].
  destruct (Z.to_nat m) as [|[|[|[|[|[|[|[|[|[|[|[|[|[|k]]]]]]]]]]]]]];
    simpl; lia.
Qed.

Lemma days_before_month_le_335 (y m : Z) : _days_before_month y m <= 335.
Proof.
  unfold _days_before_month.
  assert (nth (Z.to_nat m) _DAYS_BEFORE_MONTH 0 <= 334) as Hnth.
  { destruct (Z.to_nat m) as [|[|[|[|[|[|[|[|[|[|[|[|[|[|k]]]]]]]]]]]]]];
      simpl; lia. }
  set (before := nth (Z.to_nat m) _DAYS_BEFORE_MONTH 0) in *.
  clearbody before. destruct (2 <? m), (_is_leap y); simpl; lia.
Qed.

(** Every timestamp the constructor accepts is within [2 ** 38] seconds of
    [EPOCH]. *)
Lemma datetime_range (t : datetime) :
  datetime_wf t -> Z.abs (microseconds_since_epoch t) < 2 ^ 38 * 10 ^ 6.
Proof.
  intros (Hy & Hm & Hd & Hh & Hmin & Hs & Hus).
  unfold microseconds_since_epoch.
  change (toordinal EPOCH) with 719163.
  change (2 ^ 38 * 10 ^ 6) with 274877906944000000.
  assert (1 <= toordinal t <= 3652060) as Hord.
  { unfold toordinal.
    pose proof (days_before_month_nonneg (year t) (month t) Hm).
    pose proof (days_before_month_le_335 (year t) (month t)).
    pose proof (days_in_month_le_31 (year t) (month t)).
    assert (0 <= _days_before_year (year t) <= 3651694).
    { unfold _days_before_year. Z.to_euclidean_division_equations. lia. }
    lia. }
  lia.
Qed.

(** A timestamp of whole milliseconds, which is what the document store
    holds, is rendered as its whole seconds from [EPOCH], cut towards zero,
    in every year. *)
Lemma cleanup_datetime_milliseconds (t : datetime) :
  datetime_wf t -> microsecond t mod 1000 = 0 ->
  _cleanup (PDatetime t)
  = PInt (Z.quot (microseconds_since_epoch t) (10 ^ 6)).
Proof.
  intros Hwf Hms. rewrite cleanup_datetime.
  rewrite (true_div_int _ 38);
    [reflexivity | lia | exact (datetime_range t Hwf) |].
  change (2 ^ (53 - 38)) with 32768.
  assert (microseconds_since_epoch t mod 1000 = 0) as Hdiv.
  { unfold microseconds_since_epoch.
    Z.to_euclidean_division_equations. lia. }
  assert (Z.abs (microseconds_since_epoch t) mod 1000000 <= 999000).
  { set (n := microseconds_since_epoch t) in *. clearbody n.
    Z.to_euclidean_division_equations. lia. }
  lia.
Qed.

(** C9, as amended: [_cleanup] renders every identifier as its canonical
    string: 36 characters, the four hyphens after the groups of 8, 4, 4 and
    4, and around them 32 lower-case hexadecimal digits that spell the
    128-bit integer of the identifier; it renders a timestamp as
    the whole number of seconds between it and [EPOCH], cut towards zero,
    when the timestamp is within [2 ** 34] seconds of [EPOCH] or is of whole
    milliseconds; and for a timestamp at or after [EPOCH] the number is never
    negative. *)
Theorem cleanup_identifiers_and_timestamps :
  (forall u, UUID_wf u ->
     exists s, _cleanup (PUUID u) = PStr s
               /\ String.length s = 36%nat
               /\ String.get 8 s = Some "-"%char
               /\ String.get 13 s = Some "-"%char
               /\ String.get 18 s = Some "-"%char
               /\ String.get 23 s = Some "-"%char
               /\ List.length (canonical_digits s) = 32%nat
               /\ forallb is_lower_hex (canonical_digits s) = true
               /\ digits_value (canonical_digits s) = uuid_int u)
  /\ (forall t,
        Z.abs (microseconds_since_epoch t) < 2 ^ 34 * 10 ^ 6
        \/ (datetime_wf t /\ microsecond t mod 1000 = 0) ->
        _cleanup (PDatetime t)
        = PInt (Z.quot (microseconds_since_epoch t) (10 ^ 6)))
  /\ (forall t, 0 <= microseconds_since_epoch t ->
        exists n, _cleanup (PDatetime t) = PInt n /\ 0 <= n).
Proof.
  split; [|split].
  - intros u Hu. exists (str_UUID u).
    split; [reflexivity|].
    destruct (str_UUID_canonical u Hu) as [Hlen [H8 [H13 [H18 H23]]]].
    rewrite (canonical_digits_str_UUID u Hu).
    repeat (split; [assumption|]).
    split; [exact (format_032x_length (uuid_int u) Hu)|].
    split; [apply format_032x_lower; apply Hu|].
    apply format_032x_value. apply Hu.
  - intros t [Hnear|[Hwf Hms]].
    + apply cleanup_datetime_near_epoch. exact Hnear.
    + apply cleanup_datetime_milliseconds; assumption.
  - apply cleanup_datetime_nonneg.
Qed.

Lemma cleanup_identifiers_and_timestamps_witness :
  (exists s, _cleanup (PUUID (mkUUID 12345678901234567890)) = PStr s
             /\ s = "00000000-0000-0000-ab54-a98ceb1f0ad2"
             /\ String.length s = 36%nat
             /\ digits_value (canonical_digits s) = 12345678901234567890)
  /\ _cleanup (PDatetime half_past_2020) = PInt 1577836800
  /\ _cleanup (PDatetime last_millisecond) = PInt 253402300799.
Proof.
  destruct cleanup_identifiers_and_timestamps as [Huuid [Htime _]].
  split; [|split].
  - destruct (Huuid (mkUUID 12345678901234567890))
      as [s [Hs [Hlen [_ [_ [_ [_ [_ [_ Hvalue]]]]]]]]].
    + cbv. split; [discriminate | reflexivity].
    + exists s. split; [exact Hs|]. split; [|split; [exact Hlen|exact Hvalue]].
      vm_compute in Hs. congruence.
  - rewrite (Htime half_past_2020).
    + vm_compute. reflexivity.
    + left. vm_compute. reflexivity.
  - rewrite (Htime last_millisecond).
    + vm_compute. reflexivity.
    + right. split; [vm_compute; repeat split; discriminate | reflexivity].
Defined.

(** C9 as stated fails on the last microsecond of 2599, which lies
    19880899199.999999 seconds after [EPOCH]: [total_seconds()] is the
    nearest binary64 value, the next whole second, and [int] cuts that. *)
Lemma cleanup_datetime_next_second :
  datetime_wf last_of_2599
  /\ Z.quot (microseconds_since_epoch last_of_2599) (10 ^ 6) = 19880899199
  /\ total_seconds (datetime_sub last_of_2599 EPOCH)
     = {| mant := 5211658439884800; expo := -18 |}
  /\ _cleanup (PDatetime last_of_2599) = PInt 19880899200
  /\ _cleanup (PDatetime last_of_2599)
     <> PInt (Z.quot (microseconds_since_epoch last_of_2599) (10 ^ 6)).
Proof.
  split; [vm_compute; repeat split; discriminate|].
  repeat split; try (vm_compute; reflexivity).
  vm_compute. discriminate.
Qed.

(** ** Further properties of the normaliser *)

Lemma forallb_map_In {A B : Type} (f : A -> B) (p : B -> bool) (l : list A) :
  (forall x, In x l -> p (f x) = true) -> forallb p (map f l) = true.
Proof.
  intros H. apply forallb_forall. intros y Hy.
  apply in_map_iff in Hy. destruct Hy as [x [<- Hx]]. apply H. exact Hx.
Qed.

Lemma collect_check (p : pyval -> bool) (entries : dict) :
  Forall (fun kv => p (_cleanup (snd kv)) = true) entries ->
  forallb (fun kv => p (snd kv)) (collect (cleaned entries) []) = true.
Proof.
  intros H. apply forallb_forall. apply Forall_forall.
  apply (collect_values (fun v => p v = true)); [constructor|].
  apply (cleaned_values (fun v => p v = true)). exact H.
Qed.

(** X1: on a document without sets the output of [_cleanup] is made of
    [None], booleans, numbers, strings, lists and dictionaries only: no
    identifier and no timestamp is left at any depth. *)
Theorem cleanup_output_is_json (obj : pyval) :
  free_of_sets obj = true -> json_native (_cleanup obj) = true.
Proof.
  induction obj as [| | | |s|items IH|entries IH|members _|u|t]
    using pyval_nested_ind; try reflexivity.
  - intros _. destruct s; reflexivity.
  - destruct items as [|x rest]; [reflexivity|].
    intros Hs. change (forallb free_of_sets (x :: rest) = true) in Hs.
    rewrite cleanup_list.
    change (forallb json_native (map _cleanup (x :: rest)) = true).
    apply forallb_map_In. intros y Hy.
    rewrite Forall_forall in IH. apply IH; [exact Hy|].
    rewrite forallb_forall in Hs. apply Hs. exact Hy.
  - destruct entries as [|kv rest]; [reflexivity|].
    intros Hs.
    change (forallb (fun e => free_of_sets (snd e)) (kv :: rest) = true) in Hs.
    rewrite cleanup_dict.
    change (forallb (fun e => json_native (snd e))
              (collect (cleaned (kv :: rest)) []) = true).
    apply (collect_check json_native).
    rewrite forallb_forall in Hs. rewrite Forall_forall in IH |- *.
    intros e He. apply IH; [exact He | apply Hs; exact He].
  - discriminate.
Qed.

Lemma cleanup_output_is_json_witness :
  json_native (_cleanup stored_plugin_document) = true.
Proof.
  apply (cleanup_output_is_json stored_plugin_document). reflexivity.
Defined.

(** X2: no dictionary in the output of [_cleanup] has [None] for a value,
    at any depth: an entry whose value is [None], or normalises to it, is
    left out. *)
Theorem cleanup_output_has_no_null_values (obj : pyval) :
  free_of_null_values (_cleanup obj) = true.
Proof.
  induction obj as [| | | |s|items IH|entries IH|members _|u|t]
    using pyval_nested_ind; try reflexivity.
  - destruct s; reflexivity.
  - destruct items as [|x rest]; [reflexivity|].
    rewrite cleanup_list.
    change (forallb free_of_null_values (map _cleanup (x :: rest)) = true).
    apply forallb_map_In. intros y Hy.
    rewrite Forall_forall in IH. apply IH. exact Hy.
  - destruct entries as [|kv rest]; [reflexivity|].
    rewrite cleanup_dict.
    change (forallb (fun e => negb (is_None (snd e))
                              && free_of_null_values (snd e))
              (collect (cleaned (kv :: rest)) []) = true).
    apply forallb_forall. apply Forall_forall.
    apply (collect_values
             (fun v => negb (is_None v) && free_of_null_values v = true));
      [constructor|].
    apply Forall_map. eapply Forall_impl; [|exact IH].
    simpl. intros e He Hn. rewrite He.
    destruct (_cleanup (snd e)); try reflexivity. congruence.
  - destruct members; reflexivity.
Qed.

(** X3: the output of [_cleanup] has no empty string as a value, be it
    the output itself, an element of a list or a value of a dictionary at
    any depth: the empty string counts as an empty iterable, so it becomes
    [None] in a list and its entry is left out of a dictionary.  Keys and
    the members of sets are another matter: the key ["_"] comes out as the
    empty key, and a set that is not empty is returned as it is, an empty
    string among its members included. *)
Theorem cleanup_output_has_no_empty_string_value (obj : pyval) :
  free_of_empty_string_values (_cleanup obj) = true
  /\ (forall pre post,
        obj = PList (pre ++ PStr "" :: post) ->
        _cleanup obj = PList (map _cleanup pre ++ PNone :: map _cleanup post))
  /\ (forall pre post k,
        obj = PDict (pre ++ (k, PStr "") :: post) -> pre ++ post <> [] ->
        _cleanup obj = _cleanup (PDict (pre ++ post)))
  /\ (_cleanup obj <> PNone ->
      _cleanup (PDict [("_", obj)]) = PDict [("", _cleanup obj)])
  /\ (forall members,
        obj = PSet members -> members <> [] -> _cleanup obj = obj).
Proof.
  split; [|split; [|split; [|split]]].
  - induction obj as [| | | |s|items IH|entries IH|members _|u|t]
      using pyval_nested_ind; try reflexivity.
    + destruct s; reflexivity.
    + destruct items as [|x rest]; [reflexivity|].
      rewrite cleanup_list.
      change (forallb free_of_empty_string_values
                (map _cleanup (x :: rest)) = true).
      apply forallb_map_In. intros y Hy.
      rewrite Forall_forall in IH. apply IH. exact Hy.
    + destruct entries as [|kv rest]; [reflexivity|].
      rewrite cleanup_dict.
      change (forallb (fun e => free_of_empty_string_values (snd e))
                (collect (cleaned (kv :: rest)) []) = true).
      apply (collect_check free_of_empty_string_values). exact IH.
    + destruct members; reflexivity.
    + simpl. destruct (str_UUID u) eqn:E; [|reflexivity].
      exfalso. exact (str_UUID_nonempty u E).
  - intros pre post ->.
    rewrite cleanup_list_nonempty by (destruct pre; discriminate).
    rewrite map_app. reflexivity.
  - intros pre post k -> Hne.
    rewrite (cleanup_dict_nonempty (pre ++ post) Hne).
    rewrite cleanup_dict_nonempty by (destruct pre; discriminate).
    rewrite !cleaned_app, !collect_app. reflexivity.
  - intros Hsome.
    rewrite cleanup_dict_nonempty by discriminate.
    change (cleaned [("_", obj)]) with [("_", _cleanup obj)].
    change (collect [("_", _cleanup obj)] [])
      with (keep_entry [] "_" (_cleanup obj)).
    destruct (_cleanup obj); try reflexivity. congruence.
  - intros members -> Hne. destruct members; [congruence | reflexivity].
Qed.

Lemma cleanup_output_has_no_empty_string_value_witness :
  _cleanup (PList [PStr "a"; PStr ""]) = PList [PStr "a"; PNone]
  /\ _cleanup (PDict [("name", PStr "x"); ("description", PStr "")])
     = _cleanup (PDict [("name", PStr "x")])
  /\ _cleanup (PDict [("_", PInt 1)]) = PDict [("", PInt 1)]
  /\ _cleanup (PSet [PStr ""; PInt 1]) = PSet [PStr ""; PInt 1].
Proof.
  split; [|split; [|split]].
  - destruct (cleanup_output_has_no_empty_string_value
                (PList [PStr "a"; PStr ""])) as [_ [Hlist _]].
    apply (Hlist [PStr "a"] []). reflexivity.
  - destruct (cleanup_output_has_no_empty_string_value
                (PDict [("name", PStr "x"); ("description", PStr "")]))
      as [_ [_ [Hdict _]]].
    apply (Hdict [("name", PStr "x")] [] "description");
      [reflexivity | discriminate].
  - destruct (cleanup_output_has_no_empty_string_value (PInt 1))
      as [_ [_ [_ [Hkey _]]]].
    apply Hkey. discriminate.
  - destruct (cleanup_output_has_no_empty_string_value
                (PSet [PStr ""; PInt 1])) as [_ [_ [_ [_ Hset]]]].
    apply (Hset [PStr ""; PInt 1]); [reflexivity | discriminate].
Defined.

Lemma dict_set_key_In {V : Type} (d : list (string * V)) (k : string) (v : V)
    (k' : string) :
  In k' (map fst (dict_set d k v)) <-> In k' (map fst d) \/ k' = k.
Proof.
  rewrite dict_set_keys.
  destruct (existsb (String.eqb k) (map fst d)) eqn:E.
  - split; [auto|]. intros [H| ->]; [exact H|].
    apply existsb_exists in E. destruct E as [x [Hx Hk]].
    apply String.eqb_eq in Hk. subst x. exact Hx.
  - rewrite in_app_iff. simpl. intuition.
Qed.

Lemma collect_keys (entries acc : dict) (k' : string) :
  In k' (map fst (collect entries acc))
  <-> In k' (map fst acc)
      \/ exists k v, In (k, v) entries /\ v <> PNone /\ rename_key k = k'.
Proof.
  revert acc. induction entries as [|[k v] rest IH]; intros acc.
  - simpl. split; [auto|]. intros [H|[k [v [[] _]]]]. exact H.
  - change (collect ((k, v) :: rest) acc)
      with (collect rest (keep_entry acc k v)).
    rewrite IH. split.
    + intros [H|[k2 [v2 [Hin Hrest]]]].
      * destruct v; simpl in H;
          try (apply dict_set_key_In in H; destruct H as [H| ->];
               [left; exact H
               | right; eexists; eexists;
                 split; [left; reflexivity | split; [discriminate | reflexivity]]]).
        left. exact H.
      * right. exists k2, v2. split; [right; exact Hin | exact Hrest].
    + intros [H|[k2 [v2 [[Heq|Hin] [Hv Hk]]]]].
      * left. destruct v; simpl; try (apply dict_set_key_In; left; exact H).
        exact H.
      * injection Heq as -> ->. left.
        destruct v2; try congruence; simpl; apply dict_set_key_In; right;
          symmetry; exact Hk.
      * right. exists k2, v2. auto.
Qed.

Lemma cleaned_In (entries : dict) (k : string) (cv : pyval) :
  In (k, cv) (cleaned entries)
  <-> exists v, In (k, v) entries /\ cv = _cleanup v.
Proof.
  unfold cleaned. rewrite in_map_iff. split.
  - intros [[k0 v0] [Heq Hin]]. simpl in Heq. injection Heq as -> <-.
    exists v0. auto.
  - intros [v [Hin ->]]. exists (k, v). auto.
Qed.

(** X4: the keys of a normalised dictionary are the rewritten keys of the
    entries whose value does not normalise to [None], and no others: ["_cls"]
    comes out as ["type"], any other key without one leading underscore. *)
Theorem cleanup_dict_keys (entries out : dict) (k' : string) :
  _cleanup (PDict entries) = PDict out ->
  (In k' (map fst out)
   <-> exists k v, In (k, v) entries /\ _cleanup v <> PNone
                   /\ rename_key k = k').
Proof.
  intros Hout.
  destruct entries as [|kv rest]; [discriminate Hout|].
  rewrite cleanup_dict in Hout.
  assert (out = collect (cleaned (kv :: rest)) []) as -> by congruence.
  clear Hout. rewrite collect_keys. split.
  - intros [H|[k [cv [Hin [Hcv Hk]]]]]; [simpl in H; contradiction|].
    apply cleaned_In in Hin. destruct Hin as [v [Hin ->]].
    exists k, v. auto.
  - intros [k [v [Hin [Hv Hk]]]]. right. exists k, (_cleanup v).
    split; [apply cleaned_In; exists v; auto | auto].
Qed.

Lemma cleanup_dict_keys_witness :
  In "type" (map fst [("id", PInt 7); ("type", PStr "Plugin")])
  /\ ~ In "tags" (map fst [("id", PInt 7); ("type", PStr "Plugin")]).
Proof.
  pose proof (cleanup_dict_keys
                [("_id", PInt 7); ("_cls", PStr "Plugin"); ("tags", PList [])]
                [("id", PInt 7); ("type", PStr "Plugin")]) as H.
  split.
  - apply (H "type" eq_refl). exists "_cls", (PStr "Plugin").
    split; [right; left; reflexivity | split; [discriminate | reflexivity]].
  - intros Hin. apply (H "tags" eq_refl) in Hin.
    destruct Hin as [k [v [Hin [Hv Hk]]]].
    destruct Hin as [Heq|[Heq|[Heq|[]]]]; injection Heq as <- <-;
      try discriminate Hk. apply Hv. reflexivity.
Defined.

Lemma collect_get_untouched (entries acc : dict) (k' : string) :
  (forall k v, In (k, v) entries -> rename_key k = k' -> v = PNone) ->
  dict_get (collect entries acc) k' = dict_get acc k'.
Proof.
  revert acc. induction entries as [|[k v] rest IH]; intros acc H.
  - reflexivity.
  - change (collect ((k, v) :: rest) acc)
      with (collect rest (keep_entry acc k v)).
    rewrite IH by (intros k2 v2 Hin; apply H; right; exact Hin).
    destruct (String.eqb_spec (rename_key k) k') as [Hk|Hk].
    + rewrite (H k v (or_introl eq_refl) Hk). reflexivity.
    + destruct v; simpl; try reflexivity; rewrite dict_get_set;
        apply String.eqb_neq in Hk; rewrite Hk; reflexivity.
Qed.

(** X5: when several entries of a dictionary come to the same rewritten
    key, such as ["_id"] and ["id"], the value kept under that key is the one
    of the last of them whose value does not normalise to [None]. *)
Theorem cleanup_later_entry_wins (pre post : dict) (k : string) (v : pyval) :
  _cleanup v <> PNone ->
  (forall k2 v2, In (k2, v2) post -> rename_key k2 = rename_key k ->
                 _cleanup v2 = PNone) ->
  dict_get (entries_of (_cleanup (PDict (pre ++ (k, v) :: post))))
           (rename_key k)
  = Some (_cleanup v).
Proof.
  intros Hv Hpost.
  rewrite cleanup_dict_nonempty by (destruct pre; discriminate).
  simpl entries_of. rewrite cleaned_app, collect_app.
  change (cleaned ((k, v) :: post)) with ((k, _cleanup v) :: cleaned post).
  change (collect ((k, _cleanup v) :: cleaned post)
                  (collect (cleaned pre) []))
    with (collect (cleaned post)
                  (keep_entry (collect (cleaned pre) []) k (_cleanup v))).
  rewrite collect_get_untouched.
  - destruct (_cleanup v); try congruence; simpl; rewrite dict_get_set,
      String.eqb_refl; reflexivity.
  - intros k2 cv Hin Hk. apply cleaned_In in Hin.
    destruct Hin as [v2 [Hin ->]]. apply (Hpost k2 v2 Hin Hk).
Qed.

Lemma cleanup_later_entry_wins_witness :
  dict_get (entries_of (_cleanup (PDict [("_id", PInt 1); ("id", PInt 2);
                                         ("name", PStr "x")])))
           "id"
  = Some (PInt 2).
Proof.
  apply (cleanup_later_entry_wins [("_id", PInt 1)] [("name", PStr "x")]
           "id" (PInt 2)).
  - discriminate.
  - intros k2 v2 [Heq|[]] Hk. injection Heq as <- <-. discriminate Hk.
Defined.

(** ** Further properties of the rendering *)

Lemma round_scaled_near (n s : Z) :
  0 <= n -> 0 < s ->
  n / 1000000 <= round_half_even (n * s) 1000000 / s <= n / 1000000 + 1.
Proof.
  intros Hn Hs.
  set (q := n / 1000000). set (r := n mod 1000000).
  pose proof (Z.div_mod n 1000000 ltac:(lia)) as Hnq.
  pose proof (Z.mod_pos_bound n 1000000 ltac:(lia)) as Hr.
  fold q r in Hnq, Hr. clearbody q r.
  assert (n * s = r * s + q * s * 1000000) as -> by (rewrite Hnq; ring).
  assert (0 <= r * s <= 999999 * s) as Hrs.
  { split; [apply Z.mul_nonneg_nonneg; lia|].
    apply Z.mul_le_mono_nonneg_r; lia. }
  set (P := r * s) in *. clearbody P.
  unfold round_half_even.
  rewrite Z.div_add, Z.mod_add by lia.
  pose proof (Z.div_mod P 1000000 ltac:(lia)) as HP.
  pose proof (Z.mod_pos_bound P 1000000 ltac:(lia)) as Hu.
  set (t := P / 1000000) in *. set (u := P mod 1000000) in *.
  clearbody t u.
  assert (0 <= t < s) as Ht by lia.
  set (m := if 2 * u <? 1000000 then t + q * s
            else if 1000000 <? 2 * u then t + q * s + 1
                 else if Z.even (t + q * s) then t + q * s
                      else t + q * s + 1).
  assert (q * s <= m <= (q + 1) * s) as Hm.
  { subst m. destruct (2 * u <? 1000000), (1000000 <? 2 * u),
      (Z.even (t + q * s)); lia. }
  clearbody m. split.
  - apply Z.div_le_lower_bound; lia.
  - apply Z.div_le_upper_bound; lia.
Qed.

Lemma nearest_float_near (n : Z) :
  0 < n < 2 ^ 52 * 10 ^ 6 ->
  n / 10 ^ 6 <= int_of_float (nearest_float n (10 ^ 6)) <= n / 10 ^ 6 + 1.
Proof.
  intros Hn.
  pose proof (binade_below n 52 ltac:(lia) Hn) as Hb.
  unfold nearest_float, int_of_float. cbv zeta. cbn [mant expo].
  set (e := Z.max (binade n (10 ^ 6) - 52) (-1074)).
  assert (-1074 <= e < 0) as He by (subst e; lia).
  destruct (Z.leb_spec 0 e) as [Hge|_]; [lia|].
  change (10 ^ 6) with 1000000.
  assert (0 < 2 ^ (- e)) as Hs by (apply Z.pow_pos_nonneg; lia).
  rewrite Z.quot_div_nonneg;
    [| apply round_half_even_nonneg;
       [apply Z.mul_nonneg_nonneg; lia | lia]
     | exact Hs].
  apply round_scaled_near; lia.
Qed.

Lemma true_div_near (n : Z) :
  Z.abs n < 2 ^ 52 * 10 ^ 6 ->
  Z.abs (int_of_float (true_div n (10 ^ 6)) - Z.quot n (10 ^ 6)) <= 1.
Proof.
  intros Hn. unfold true_div.
  destruct (Z.eqb_spec n 0) as [->|Hn0]; [vm_compute; discriminate|].
  destruct (Z.ltb_spec 0 n) as [Hpos|Hneg].
  - pose proof (nearest_float_near n ltac:(lia)) as H.
    rewrite (Z.quot_div_nonneg n (10 ^ 6)) by (try reflexivity; lia). lia.
  - cbv zeta. rewrite int_of_float_opp.
    pose proof (nearest_float_near (- n) ltac:(lia)) as H.
    rewrite <- (Z.quot_div_nonneg (- n) (10 ^ 6)) in H
      by (try reflexivity; lia).
    rewrite Z.quot_opp_l in H by discriminate. lia.
Qed.

(** X6: for every timestamp the [datetime] constructor accepts, the number
    [_cleanup] renders is the whole seconds from [EPOCH], cut towards zero,
    or one second next to it: the float of [total_seconds()] never costs
    more than one second. *)
Theorem cleanup_datetime_within_one_second (t : datetime) :
  datetime_wf t ->
  exists n, _cleanup (PDatetime t) = PInt n
            /\ Z.abs (n - Z.quot (microseconds_since_epoch t) (10 ^ 6)) <= 1.
Proof.
  intros Hwf. rewrite cleanup_datetime. eexists. split; [reflexivity|].
  apply true_div_near.
  pose proof (datetime_range t Hwf) as Hrange.
  change (2 ^ 38 * 10 ^ 6) with 274877906944000000 in Hrange.
  change (2 ^ 52 * 10 ^ 6) with 4503599627370496000000. lia.
Qed.

Lemma cleanup_datetime_within_one_second_witness :
  exists n, _cleanup (PDatetime last_of_2599) = PInt n
            /\ Z.abs (n - 19880899199) <= 1.
Proof.
  destruct (cleanup_datetime_within_one_second last_of_2599)
    as [n [Hn Hnear]].
  - vm_compute. repeat split; discriminate.
  - exists n. split; [exact Hn | exact Hnear].
Defined.

Lemma string_of_list_ascii_inj (a b : list ascii) :
  string_of_list_ascii a = string_of_list_ascii b -> a = b.
Proof.
  intros H. rewrite <- (list_ascii_of_string_of_list_ascii a),
    <- (list_ascii_of_string_of_list_ascii b), H. reflexivity.
Qed.

Lemma str_UUID_keeps_the_bits (u v : UUID) :
  UUID_wf u -> UUID_wf v ->
  _cleanup (PUUID u) = _cleanup (PUUID v) -> u = v.
Proof.
  intros Hu Hv Heq. simpl in Heq. injection Heq as Heq.
  unfold str_UUID in Heq. apply string_of_list_ascii_inj in Heq.
  pose proof (format_032x_length (uuid_int u) Hu) as Hlu.
  pose proof (format_032x_length (uuid_int v) Hv) as Hlv.
  pose proof (format_032x_value (uuid_int u) ltac:(apply Hu)) as Hvu.
  pose proof (format_032x_value (uuid_int v) ltac:(apply Hv)) as Hvv.
  set (hu := format_032x (uuid_int u)) in *.
  set (hv := format_032x (uuid_int v)) in *.
  assert (hu = hv) as Hsame.
  { clearbody hu hv. clear Hvu Hvv.
    do 32 (destruct hu as [|? hu]; [discriminate Hlu|]).
    destruct hu; [|discriminate Hlu].
    do 32 (destruct hv as [|? hv]; [discriminate Hlv|]).
    destruct hv; [|discriminate Hlv].
    unfold slice in Heq. simpl in Heq.
    injection Heq. intros. subst. reflexivity. }
  rewrite Hsame in Hvu. rewrite Hvu in Hvv.
  destruct u as [x], v as [y]. simpl in Hvv. congruence.
Qed.

(** X7: two different identifiers are never rendered as the same string:
    the canonical string keeps all 128 bits. *)
Theorem cleanup_UUID_distinct (u v : UUID) :
  UUID_wf u -> UUID_wf v -> u <> v ->
  _cleanup (PUUID u) <> _cleanup (PUUID v).
Proof.
  intros Hu Hv Hne Heq. apply Hne.
  apply str_UUID_keeps_the_bits; assumption.
Qed.

Lemma cleanup_UUID_distinct_witness :
  _cleanup (PUUID (mkUUID 255)) <> _cleanup (PUUID (mkUUID (2 ^ 127))).
Proof.
  apply (cleanup_UUID_distinct (mkUUID 255) (mkUUID (2 ^ 127))).
  - cbv. split; [discriminate | reflexivity].
  - cbv. split; [discriminate | reflexivity].
  - discriminate.
Defined.

(** ** Further properties of the query translation *)

(** X8: whatever the query string, [PluginsAPI.get] never asks the query
    engine for more than 300 documents: its answer is the same with an
    engine that finds nothing past that limit. *)
Theorem list_never_asks_for_more_than_300
    (select : plugin_class -> dict -> Z -> store -> list Plugin)
    (args : multidict) (db : store) :
  PluginsAPI_get select args db = PluginsAPI_get (capped select) args db.
Proof.
  unfold PluginsAPI_get, query_limit, capped.
  destruct (args_get args "limit") as [text|]; [|reflexivity].
  destruct (int_of_str text) as [limit|]; [|reflexivity].
  simpl. destruct (Z.ltb_spec 300 limit) as [Hbig|Hsmall].
  - reflexivity.
  - destruct (Z.leb_spec limit 300); [reflexivity | lia].
Qed.

Lemma lstrip_In (c : ascii) (l : list ascii) :
  In c l -> is_space c = false -> In c (lstrip l).
Proof.
  intros Hin Hc. induction l as [|a l IH]; [destruct Hin|].
  simpl. destruct (is_space a) eqn:Ha.
  - destruct Hin as [->|Hin]; [congruence | apply IH; exact Hin].
  - exact Hin.
Qed.

Lemma strip_In (c : ascii) (l : list ascii) :
  In c l -> is_space c = false -> In c (strip l).
Proof.
  intros Hin Hc. unfold strip.
  apply -> in_rev. apply lstrip_In; [|exact Hc].
  apply -> in_rev. apply lstrip_In; assumption.
Qed.

Lemma lstrip_spaces (l : list ascii) :
  Forall (fun c => is_space c = true) l -> lstrip l = [].
Proof.
  induction 1 as [|a l Ha _ IH]; [reflexivity|].
  simpl. rewrite Ha. exact IH.
Qed.

Lemma parse_digits_foreign (c : ascii) (l : list ascii) :
  In c l -> digit_value c = None -> c <> "_"%char ->
  forall acc after_digit, parse_digits l acc after_digit = None.
Proof.
  intros Hin Hd Hu. induction l as [|a l IH]; [destruct Hin|].
  intros acc after_digit. simpl.
  destruct (Ascii.eqb_spec a "_"%char) as [->|Ha].
  - destruct Hin as [Heq|Hin]; [congruence|].
    destruct after_digit; [apply IH; exact Hin | reflexivity].
  - destruct (digit_value a) as [d|] eqn:Hda; [|reflexivity].
    destruct Hin as [Heq|Hin]; [congruence | apply IH; exact Hin].
Qed.

Lemma int_of_ascii_foreign (l : list ascii) (c : ascii) :
  In c l -> is_integer_char c = false -> int_of_ascii l = None.
Proof.
  intros Hin Hc. unfold is_integer_char in Hc.
  do 4 (apply orb_false_elim in Hc; destruct Hc as [Hc ?]).
  assert (digit_value c = None) as Hd
    by (destruct (digit_value c); [discriminate | reflexivity]).
  assert (c <> "_"%char) as Hu by (intros ->; discriminate).
  assert (c <> "-"%char) as Hm by (intros ->; discriminate).
  assert (c <> "+"%char) as Hp by (intros ->; discriminate).
  pose proof (strip_In c _ Hin Hc) as Hs.
  unfold int_of_ascii. destruct (strip l) as [|a l']; [reflexivity|].
  destruct (Ascii.eqb_spec a "-"%char) as [->|Ha].
  - destruct Hs as [Heq|Hs]; [congruence|].
    rewrite (parse_digits_foreign c l' Hs Hd Hu). reflexivity.
  - destruct (Ascii.eqb_spec a "+"%char) as [->|Hb].
    + destruct Hs as [Heq|Hs]; [congruence|].
      apply (parse_digits_foreign c l' Hs Hd Hu).
    + apply (parse_digits_foreign c (a :: l') Hs Hd Hu).
Qed.

Lemma ascii_of_byte (c : ascii) : ascii_of_nat (Z.to_nat (byte c)) = c.
Proof. unfold byte. rewrite Nat2Z.id. apply ascii_nat_embedding. Qed.

Lemma is_continuation_byte (b : Z) : is_continuation b = true -> 128 <= b.
Proof.
  unfold is_continuation. intros H. apply andb_prop in H.
  destruct H as [H _]. apply Z.leb_le. exact H.
Qed.

(** An ASCII byte of UTF-8 text is a character of the text. *)
Lemma utf8_decode_In (c : ascii) :
  byte c < 128 ->
  forall (n : nat) (l : list ascii) (cps : list Z),
    (List.length l <= n)%nat -> In c l -> utf8_decode l = Some cps ->
    In (byte c) cps.
Proof.
  intros Hc. induction n as [|n IH]; intros l cps Hlen Hin Hdec.
  - destruct l; [destruct Hin | simpl in Hlen; lia].
  - destruct l as [|c0 rest]; [destruct Hin|].
    cbn [List.length] in Hlen. cbn [utf8_decode] in Hdec. cbv zeta in Hdec.
    destruct (Z.ltb_spec (byte c0) 128) as [Hlow|Hhigh].
    + destruct (utf8_decode rest) as [cps'|] eqn:E; [|discriminate].
      cbn [option_map] in Hdec. injection Hdec as <-.
      destruct Hin as [->|Hin]; [left; reflexivity|].
      right. apply (IH rest cps'); [lia | exact Hin | exact E].
    + assert (forall x, In c (x :: rest) -> 128 <= byte x -> In c rest)
        as Hskip.
      { intros x [->|H] Hx; [lia | exact H]. }
      apply (Hskip c0) in Hin; [|exact Hhigh]. clear Hskip.
      assert (forall x tail, In c (x :: tail) ->
                is_continuation (byte x) = true -> In c tail) as Hcont.
      { intros x tail [->|H] Hx; [|exact H].
        apply is_continuation_byte in Hx. lia. }
      destruct (byte c0 <? 224).
      * destruct rest as [|c1 rest']; [discriminate|].
        match type of Hdec with
        | (if ?cond then _ else _) = _ => destruct cond eqn:Hcond
        end; [|discriminate].
        apply andb_prop in Hcond. destruct Hcond as [Hcond _].
        apply andb_prop in Hcond. destruct Hcond as [_ H1].
        apply (Hcont c1) in Hin; [|exact H1].
        destruct (utf8_decode rest') as [cps'|] eqn:E; [|discriminate].
        cbn [option_map] in Hdec. injection Hdec as <-.
        right. apply (IH rest' cps'); [simpl in Hlen; lia | exact Hin | exact E].
      * destruct (byte c0 <? 240).
        -- destruct rest as [|c1 [|c2 rest']]; try discriminate.
           match type of Hdec with
           | (if ?cond then _ else _) = _ => destruct cond eqn:Hcond
           end; [|discriminate].
           apply andb_prop in Hcond. destruct Hcond as [Hcond _].
           apply andb_prop in Hcond. destruct Hcond as [Hcond _].
           apply andb_prop in Hcond. destruct Hcond as [H1 H2].
           apply (Hcont c1) in Hin; [|exact H1].
           apply (Hcont c2) in Hin; [|exact H2].
           destruct (utf8_decode rest') as [cps'|] eqn:E; [|discriminate].
           cbn [option_map] in Hdec. injection Hdec as <-.
           right.
           apply (IH rest' cps'); [simpl in Hlen; lia | exact Hin | exact E].
        -- destruct rest as [|c1 [|c2 [|c3 rest']]]; try discriminate.
           match type of Hdec with
           | (if ?cond then _ else _) = _ => destruct cond eqn:Hcond
           end; [|discriminate].
           apply andb_prop in Hcond. destruct Hcond as [Hcond _].
           apply andb_prop in Hcond. destruct Hcond as [Hcond _].
           apply andb_prop in Hcond. destruct Hcond as [Hcond H3].
           apply andb_prop in Hcond. destruct Hcond as [H1 H2].
           apply (Hcont c1) in Hin; [|exact H1].
           apply (Hcont c2) in Hin; [|exact H2].
           apply (Hcont c3) in Hin; [|exact H3].
           destruct (utf8_decode rest') as [cps'|] eqn:E; [|discriminate].
           cbn [option_map] in Hdec. injection Hdec as <-.
           right.
           apply (IH rest' cps'); [simpl in Hlen; lia | exact Hin | exact E].
Qed.

Lemma ascii_of_code_point_byte (c ch : ascii) :
  byte c < 128 -> ascii_of_code_point (byte c) = Some ch -> ch = c.
Proof.
  intros Hc. unfold ascii_of_code_point.
  destruct (Z.ltb_spec (byte c) 127) as [Hlow|Hdel].
  - intros H. injection H as <-. apply ascii_of_byte.
  - assert (byte c = 127) as -> by lia. vm_compute. discriminate.
Qed.

Lemma to_ascii_decimal_In (cp : Z) (cps : list Z) :
  forall text : list ascii,
    In cp cps -> to_ascii_decimal cps = Some text ->
    exists ch, ascii_of_code_point cp = Some ch /\ In ch text.
Proof.
  induction cps as [|x cps IH]; intros text Hin Hdec; [destruct Hin|].
  cbn [to_ascii_decimal] in Hdec.
  destruct (ascii_of_code_point x) as [cx|] eqn:Ex; [|discriminate].
  destruct (to_ascii_decimal cps) as [text'|] eqn:E; [|discriminate].
  cbn [option_map] in Hdec. injection Hdec as <-.
  destruct Hin as [->|Hin].
  - exists cx. split; [exact Ex | left; reflexivity].
  - destruct (IH text' Hin eq_refl) as [ch [Hch Hin']].
    exists ch. split; [exact Hch | right; exact Hin'].
Qed.

(** Text with an ASCII character that is no part of an integer literal is
    refused, whatever its other characters. *)
Lemma int_of_str_foreign (text : string) (c : ascii) :
  In c (list_ascii_of_string text) -> is_ascii c = true ->
  is_integer_char c = false ->
  int_of_str text = None.
Proof.
  intros Hin Hascii Hc. unfold is_ascii in Hascii.
  apply Z.ltb_lt in Hascii. unfold int_of_str.
  destruct (utf8_decode (list_ascii_of_string text)) as [cps|] eqn:Ecps;
    [|reflexivity].
  destruct (to_ascii_decimal cps) as [l|] eqn:El; [|reflexivity].
  pose proof (utf8_decode_In c Hascii _ _ cps (le_n _) Hin Ecps) as Hcp.
  destruct (to_ascii_decimal_In _ _ l Hcp El) as [ch [Hch Hl]].
  rewrite (ascii_of_code_point_byte c ch Hascii Hch) in Hl.
  apply (int_of_ascii_foreign l c Hl Hc).
Qed.

Lemma is_space_byte (c : ascii) : is_space c = true -> byte c < 127.
Proof.
  unfold is_space, byte. cbv zeta. intros H.
  apply orb_prop in H. destruct H as [H|H].
  - apply Nat.eqb_eq in H. lia.
  - apply andb_prop in H. destruct H as [_ H]. apply Nat.leb_le in H. lia.
Qed.

(** ASCII text is its own code points and its own ASCII form. *)
Lemma utf8_decode_ascii (l : list ascii) :
  Forall (fun c => byte c < 127) l ->
  utf8_decode l = Some (map byte l)
  /\ to_ascii_decimal (map byte l) = Some l.
Proof.
  induction 1 as [|c l Hc _ [IHd IHa]]; [split; reflexivity|].
  split.
  - cbn [utf8_decode map]. cbv zeta.
    destruct (Z.ltb_spec (byte c) 128); [|lia].
    rewrite IHd. reflexivity.
  - cbn [to_ascii_decimal map]. unfold ascii_of_code_point.
    destruct (Z.ltb_spec (byte c) 127); [|lia].
    rewrite IHa, ascii_of_byte. reflexivity.
Qed.

Lemma int_of_str_blank (text : string) :
  Forall (fun c => is_space c = true) (list_ascii_of_string text) ->
  int_of_str text = None.
Proof.
  intros H. unfold int_of_str.
  assert (Forall (fun c => byte c < 127) (list_ascii_of_string text))
    as Hlow.
  { apply Forall_forall. intros c Hc. apply is_space_byte.
    rewrite Forall_forall in H. apply H. exact Hc. }
  destruct (utf8_decode_ascii (list_ascii_of_string text) Hlow) as [-> ->].
  unfold int_of_ascii, strip. rewrite (lstrip_spaces _ H). reflexivity.
Qed.

(** [int] reads the digits and the white space of other scripts: ARABIC-INDIC
    DIGIT THREE (bytes D9 A3) is 3, a NO-BREAK SPACE (C2 A0) before 5 is
    skipped, FULLWIDTH DIGIT FIVE (EF BC 95) after a minus sign is -5; an
    overlong form (C0 B5) is not text. *)
Lemma int_of_str_other_scripts :
  int_of_str (String "217" (String "163" "")) = Some 3
  /\ int_of_str (String "194" (String "160" "5")) = Some 5
  /\ int_of_str (String "-" (String "239" (String "188" (String "149" ""))))
     = Some (-5)
  /\ int_of_str (String "192" (String "181" "")) = None.
Proof. repeat split. Qed.

(** X9: a [limit] that is empty or all ASCII white space, or that holds any
    ASCII character other than white space, a sign, a decimal digit or an
    underscore ([2.5], [1e3], [0x10], [ten]), ends [PluginsAPI.get] in the
    uncaught [ValueError] of [int], whatever its other characters. *)
Theorem limit_not_an_integer_raises
    (select : plugin_class -> dict -> Z -> store -> list Plugin)
    (args : multidict) (db : store) (text : string) :
  args_get args "limit" = Some text ->
  Forall (fun c => is_space c = true) (list_ascii_of_string text)
  \/ (exists c, In c (list_ascii_of_string text)
                /\ is_ascii c = true
                /\ is_integer_char c = false) ->
  PluginsAPI_get select args db = Raise (Uncaught ValueError)
  /\ http_status (PluginsAPI_get select args db) = 500.
Proof.
  intros Ha Hbad.
  assert (int_of_str text = None) as Hp.
  { destruct Hbad as [Hblank|[c [Hin [Hascii Hc]]]].
    - apply int_of_str_blank. exact Hblank.
    - apply (int_of_str_foreign text c Hin Hascii Hc). }
  unfold PluginsAPI_get, query_limit. rewrite Ha, Hp. split; reflexivity.
Qed.

Lemma limit_not_an_integer_raises_witness :
  PluginsAPI_get (fun _ _ _ db => db) [("limit", "2.5")] [essentials]
  = Raise (Uncaught ValueError)
  /\ PluginsAPI_get (fun _ _ _ db => db) [("limit", "")] [essentials]
     = Raise (Uncaught ValueError).
Proof.
  split.
  - refine (proj1 (limit_not_an_integer_raises _ [("limit", "2.5")] _ "2.5"
                     eq_refl _)).
    right. exists "."%char.
    split; [right; left; reflexivity | split; reflexivity].
  - refine (proj1 (limit_not_an_integer_raises _ [("limit", "")] _ ""
                     eq_refl _)).
    left. constructor.
Defined.

Lemma dict_get_In_key {V : Type} (d : list (string * V)) (k : string) (v : V) :
  In (k, v) d -> dict_get d k <> None.
Proof.
  induction d as [|[k0 v0] rest IH]; [intros []|].
  intros [Heq|Hin]; simpl.
  - injection Heq as -> ->. rewrite String.eqb_refl. discriminate.
  - destruct (String.eqb k0 k); [discriminate | apply IH; exact Hin].
Qed.

(** X10: the keyword filter is empty exactly when the query string has no
    parameter other than [limit] and [type]: then the query selects on
    nothing. *)
Theorem plugin_query_empty (args : multidict) :
  plugin_query args = []
  <-> (forall k v, In (k, v) args -> k = "limit" \/ k = "type").
Proof.
  split.
  - intros Hempty k v Hin.
    pose proof (plugin_query_get args k) as Hget.
    rewrite Hempty in Hget. simpl in Hget.
    unfold is_filter_key in Hget.
    destruct (String.eqb_spec k "limit") as [->|Hl]; [left; reflexivity|].
    destruct (String.eqb_spec k "type") as [->|Ht]; [right; reflexivity|].
    simpl in Hget. exfalso.
    apply (dict_get_In_key args k v Hin).
    unfold args_get in Hget. destruct (dict_get args k); [discriminate|].
    reflexivity.
  - intros Honly.
    destruct (plugin_query args) as [|[k v] rest] eqn:E; [reflexivity|].
    exfalso.
    pose proof (plugin_query_get args k) as Hget.
    rewrite E in Hget. simpl in Hget. rewrite String.eqb_refl in Hget.
    unfold is_filter_key in Hget.
    destruct (String.eqb_spec k "limit") as [->|Hl]; [discriminate Hget|].
    destruct (String.eqb_spec k "type") as [->|Ht]; [discriminate Hget|].
    simpl in Hget. unfold args_get in Hget.
    destruct (dict_get args k) as [text|] eqn:Hk; [|discriminate Hget].
    assert (In (k, text) args) as Hin.
    { clear -Hk. induction args as [|[k0 v0] args IH]; [discriminate|].
      simpl in Hk. destruct (String.eqb_spec k0 k) as [->|Hne].
      - injection Hk as ->. left. reflexivity.
      - right. apply IH. exact Hk. }
    destruct (Honly k text Hin); contradiction.
Qed.

Lemma substring_found (pre post : string) :
  substring (String.length pre) 6 (pre ++ "spigot" ++ post)%string = "spigot".
Proof.
  induction pre as [|c pre IH]; simpl.
  - destruct post; reflexivity.
  - exact IH.
Qed.

Lemma contains_spigot (pre post : string) :
  contains "spigot" (pre ++ "spigot" ++ post)%string = true.
Proof.
  unfold contains.
  destruct (index 0 "spigot" (pre ++ "spigot" ++ post)%string) eqn:E;
    [reflexivity|].
  exfalso.
  apply (index_correct3 0 (String.length pre) "spigot" _ E);
    [discriminate | apply Nat.le_0_l | apply substring_found].
Qed.

(** X11: [PluginsAPI.get] queries the spigot collection as soon as the
    [type] parameter holds ["spigot"] anywhere in its value, and the generic
    collection when there is no [type] parameter. *)
Theorem list_collection_by_type
    (select : plugin_class -> dict -> Z -> store -> list Plugin)
    (args : multidict) (db : store) (n : Z) :
  query_limit args = Ok n ->
  (forall pre post,
     args_get args "type" = Some (pre ++ "spigot" ++ post)%string ->
     PluginsAPI_get select args db
     = answer_plugins (select SpigotPlugin (plugin_query args) n db))
  /\ (args_get args "type" = None ->
      PluginsAPI_get select args db
      = answer_plugins (select GenericPlugin (plugin_query args) n db)).
Proof.
  intros Hl. unfold PluginsAPI_get, wants_spigot. rewrite Hl.
  cbn [bind]. split.
  - intros pre post ->. rewrite contains_spigot. reflexivity.
  - intros ->. reflexivity.
Qed.

Lemma list_collection_by_type_witness :
  PluginsAPI_get (fun c _ _ db => match c with
                                  | SpigotPlugin => db
                                  | GenericPlugin => []
                                  end)
    [("type", "bukkit,spigot-1.8")] [essentials]
  = answer_plugins [essentials].
Proof.
  destruct (list_collection_by_type
              (fun c _ _ db => match c with
                               | SpigotPlugin => db
                               | GenericPlugin => []
                               end)
              [("type", "bukkit,spigot-1.8")] [essentials] 20 eq_refl)
    as [Hspigot _].
  apply (Hspigot "bukkit," "-1.8"). reflexivity.
Defined.

(** X12: [PluginsAPI.get] answers 404 with its error message exactly when
    the query finds no plugin, and otherwise 200 with a list of one entry for
    each plugin found: it never answers 200 with an empty list. *)
Theorem list_answer (plugins : list Plugin) :
  (plugins = [] ->
   answer_plugins plugins
   = Ok (message "error" "Query returned no response.", 404))
  /\ (plugins <> [] ->
      exists items,
        answer_plugins plugins = Ok (PList items, 200)
        /\ List.length items = List.length plugins).
Proof.
  split.
  - intros ->. reflexivity.
  - intros Hne. destruct plugins as [|p rest]; [congruence|].
    exists (map _cleanup (map (fun pl => PDict (Plugin_to_mongo pl))
                              (p :: rest))).
    split; [reflexivity|]. rewrite !length_map. reflexivity.
Qed.

Lemma list_answer_witness :
  exists items,
    answer_plugins [essentials; essentials_with_update] = Ok (PList items, 200)
    /\ List.length items = 2%nat.
Proof.
  destruct (list_answer [essentials; essentials_with_update]) as [_ H].
  destruct (H ltac:(discriminate)) as [items [Hok Hlen]].
  exists items. split; [exact Hok | exact Hlen].
Defined.

Lemma plugin_query_empty_witness :
  plugin_query [("limit", "5"); ("type", "spigot")] = [].
Proof.
  apply (plugin_query_empty [("limit", "5"); ("type", "spigot")]).
  intros k v [Heq|[Heq|[]]]; injection Heq as <- <-;
    [left | right]; reflexivity.
Defined.

(** ** Further properties of the handlers *)

Lemma option_eqb_eq {A : Type} (eqb : A -> A -> bool) (a b : option A) :
  (forall x y, eqb x y = true -> x = y) ->
  option_eqb eqb a b = true -> a = b.
Proof.
  intros H. destruct a, b; simpl; try discriminate; try reflexivity.
  intros E. f_equal. apply H. exact E.
Qed.

Lemma same_triple_eq (p q : Plugin) :
  same_triple p q = true -> triple_of q = triple_of p.
Proof.
  unfold same_triple, triple_of. intros H.
  apply andb_prop in H. destruct H as [H Hu].
  apply andb_prop in H. destruct H as [Hn Hd].
  apply (option_eqb_eq String.eqb) in Hn, Hd, Hu;
    try (intros x y E; apply String.eqb_eq; exact E).
  congruence.
Qed.

Lemma filter_nil {A : Type} (f : A -> bool) (l : list A) :
  (forall x, In x l -> f x = false) -> filter f l = [].
Proof.
  induction l as [|a l IH]; intros H; simpl; [reflexivity|].
  rewrite (H a (or_introl eq_refl)). apply IH.
  intros x Hx. apply H. right. exact Hx.
Qed.

Lemma filter_nil_inv {A : Type} (f : A -> bool) (l : list A) (x : A) :
  filter f l = [] -> In x l -> f x = false.
Proof.
  intros Hnil Hin. destruct (f x) eqn:E; [|reflexivity].
  assert (In x (filter f l)) as H by (apply filter_In; auto).
  rewrite Hnil in H. destruct H.
Qed.

Lemma filter_all {A : Type} (f : A -> bool) (l : list A) :
  (forall x, In x l -> f x = true) -> filter f l = l.
Proof.
  induction l as [|a l IH]; intros H; simpl; [reflexivity|].
  rewrite (H a (or_introl eq_refl)). f_equal. apply IH.
  intros x Hx. apply H. right. exact Hx.
Qed.

Lemma save_new (p : Plugin) (plugin_id : UUID) (db : store) :
  id p = Some plugin_id -> objects_by_id plugin_id db = [] ->
  save p db = db ++ [p].
Proof.
  intros Hid Hno. unfold save.
  assert (existsb (same_id p) db = false) as ->; [|reflexivity].
  destruct (existsb (same_id p) db) eqn:E; [|reflexivity].
  apply existsb_exists in E. destruct E as [q [Hq Hsame]].
  rewrite (same_id_has_id plugin_id p q Hid) in Hsame.
  rewrite (filter_nil_inv _ db q Hno Hq) in Hsame. discriminate.
Qed.

(** The plugin a create request builds, before the test for duplicates. *)
Lemma post_success (identity : string) (uuid4 : UUID) (args : multidict)
    (body : dict) (db : store) :
  (forall stored, In stored db -> triple_of stored <> requested_triple body) ->
  exists plugin,
    PluginsAPI_post identity uuid4 args body db
    = (Ok (PDict [("id", PStr (str_UUID uuid4))], 200), save plugin db)
    /\ id plugin = Some uuid4
    /\ triple_of plugin = requested_triple body
    /\ cls plugin
       = (if (wants_spigot args || dict_contains body "spigot_name")%bool
          then SpigotPlugin else GenericPlugin)
    /\ updates plugin
       = map (fun update =>
                if lacks_server_id update then set_server_id update identity
                else update)
             (updates (Plugin_init GenericPlugin body)).
Proof.
  intros Hnew. unfold PluginsAPI_post.
  match goal with
  | |- context [objects_by_triple ?p db] =>
      exists p; assert (objects_by_triple p db = []) as Hnone
  end.
  { apply filter_nil. intros q Hq.
    destruct (same_triple _ q) eqn:E; [|reflexivity].
    exfalso. apply (Hnew q Hq). rewrite (same_triple_eq _ q E).
    destruct (wants_spigot args || dict_contains body "spigot_name")%bool;
      reflexivity. }
  rewrite Hnone.
  destruct (wants_spigot args || dict_contains body "spigot_name")%bool;
    repeat split.
Qed.

(** X13: a create request whose name, description and download URL no
    stored plugin has, with an identifier drawn that is not in use, is
    answered 200 with that identifier as a string; the collection gains
    exactly one plugin at its end, which carries the drawn identifier
    whatever [id] the body gave, the three fields of the body, and the spigot
    class when the [type] parameter or a [spigot_name] field asks for it. *)
Theorem create_adds_one_plugin (identity : string) (uuid4 : UUID)
    (args : multidict) (body : dict) (db : store) :
  (forall stored, In stored db -> triple_of stored <> requested_triple body) ->
  objects_by_id uuid4 db = [] ->
  exists plugin,
    PluginsAPI_post identity uuid4 args body db
    = (Ok (PDict [("id", PStr (str_UUID uuid4))], 200), db ++ [plugin])
    /\ id plugin = Some uuid4
    /\ triple_of plugin = requested_triple body
    /\ cls plugin
       = (if (wants_spigot args || dict_contains body "spigot_name")%bool
          then SpigotPlugin else GenericPlugin).
Proof.
  intros Hnew Hfresh.
  destruct (post_success identity uuid4 args body db Hnew)
    as [plugin [Hpost [Hid [Htriple [Hcls _]]]]].
  exists plugin. rewrite Hpost, (save_new plugin uuid4 db Hid Hfresh).
  repeat split; assumption.
Qed.

Lemma create_adds_one_plugin_witness :
  exists plugin,
    PluginsAPI_post "srv" (mkUUID 2) [("type", "spigot")]
      [("id", PUUID (mkUUID 1)); ("name", PStr "other")] [essentials]
    = (Ok (PDict [("id", PStr (str_UUID (mkUUID 2)))], 200),
       [essentials; plugin])
    /\ id plugin = Some (mkUUID 2)
    /\ cls plugin = SpigotPlugin.
Proof.
  destruct (create_adds_one_plugin "srv" (mkUUID 2) [("type", "spigot")]
              [("id", PUUID (mkUUID 1)); ("name", PStr "other")] [essentials])
    as [plugin [Hpost [Hid [_ Hcls]]]].
  - intros stored [<-|[]]. discriminate.
  - reflexivity.
  - exists plugin. split; [exact Hpost | split; [exact Hid | exact Hcls]].
Defined.

(** X14: in the plugin a create stores, every update that came with a
    non-empty server identifier keeps it and every other update carries the
    identity of the caller; so with a non-empty identity no stored update
    lacks a server identifier. *)
Theorem create_fills_server_ids (identity : string) (uuid4 : UUID)
    (args : multidict) (body : dict) (db : store) :
  http_status (fst (PluginsAPI_post identity uuid4 args body db)) = 200 ->
  exists plugin,
    In plugin (snd (PluginsAPI_post identity uuid4 args body db))
    /\ id plugin = Some uuid4
    /\ Forall2
         (fun given kept =>
            update_fields kept = update_fields given
            /\ server_id kept
               = if lacks_server_id given then Some identity
                 else server_id given)
         (updates (Plugin_init GenericPlugin body)) (updates plugin)
    /\ (identity <> "" ->
        Forall (fun kept => lacks_server_id kept = false) (updates plugin)).
Proof.
  intros Hok.
  assert (forall stored, In stored db ->
                         triple_of stored <> requested_triple body) as Hnew.
  { intros stored Hin Htriple.
    rewrite (post_duplicate identity uuid4 args body db stored Hin Htriple)
      in Hok. discriminate Hok. }
  destruct (post_success identity uuid4 args body db Hnew)
    as [plugin [Hpost [Hid [_ [_ Hupd]]]]].
  exists plugin. rewrite Hpost. cbn [snd].
  split; [apply save_In|]. split; [exact Hid|].
  rewrite Hupd. clear. split.
  - induction (updates (Plugin_init GenericPlugin body)) as [|u us IH];
      simpl; constructor; [|exact IH].
    destruct (lacks_server_id u) eqn:E; split; try reflexivity.
  - intros Hidentity.
    induction (updates (Plugin_init GenericPlugin body)) as [|u us IH];
      simpl; constructor; [|exact IH].
    destruct (lacks_server_id u) eqn:E; [|exact E].
    unfold lacks_server_id, set_server_id. simpl.
    destruct identity; [congruence | reflexivity].
Qed.

Lemma create_fills_server_ids_witness :
  exists plugin,
    In plugin (snd (PluginsAPI_post "srv" (mkUUID 2) []
                      body_with_two_updates [essentials]))
    /\ Forall (fun kept => lacks_server_id kept = false) (updates plugin).
Proof.
  destruct (create_fills_server_ids "srv" (mkUUID 2) []
              body_with_two_updates [essentials] eq_refl)
    as [plugin [Hin [_ [_ Hall]]]].
  exists plugin. split; [exact Hin | apply Hall; discriminate].
Defined.

(** X15: once a create has been answered 200, the same request again is
    answered 400 whatever identifier the server draws, and stores nothing. *)
Theorem create_again_is_rejected (identity : string) (first second : UUID)
    (args : multidict) (body : dict) (db : store) :
  http_status (fst (PluginsAPI_post identity first args body db)) = 200 ->
  PluginsAPI_post identity second args body
    (snd (PluginsAPI_post identity first args body db))
  = (Ok (message "msg" "Document already exists.", 400),
     snd (PluginsAPI_post identity first args body db)).
Proof.
  apply create_twice.
Qed.

Lemma create_again_is_rejected_witness :
  PluginsAPI_post "srv" (mkUUID 3) [] other_body
    (snd (PluginsAPI_post "srv" (mkUUID 2) [] other_body [essentials]))
  = (Ok (message "msg" "Document already exists.", 400),
     snd (PluginsAPI_post "srv" (mkUUID 2) [] other_body [essentials])).
Proof.
  apply (create_again_is_rejected "srv" (mkUUID 2) (mkUUID 3) [] other_body
           [essentials]).
  reflexivity.
Defined.

Lemma objects_by_id_app (plugin_id : UUID) (a b : store) :
  objects_by_id plugin_id (a ++ b)
  = objects_by_id plugin_id a ++ objects_by_id plugin_id b.
Proof. apply filter_app. Qed.

Lemma objects_by_id_new (plugin_id : UUID) (p : Plugin) (db : store) :
  id p = Some plugin_id -> objects_by_id plugin_id db = [] ->
  objects_by_id plugin_id (db ++ [p]) = [p].
Proof.
  intros Hid Hno. rewrite objects_by_id_app, Hno. simpl.
  unfold objects_by_id. simpl.
  rewrite (proj2 (has_id_spec plugin_id p) Hid). reflexivity.
Qed.

Lemma delete_new (plugin_id : UUID) (p : Plugin) (db : store) :
  id p = Some plugin_id -> objects_by_id plugin_id db = [] ->
  PluginAPI_delete plugin_id (db ++ [p]) = (Ok (PStr "", 200), db).
Proof.
  intros Hid Hno. unfold PluginAPI_delete, queryset_delete.
  rewrite (objects_by_id_new plugin_id p db Hid Hno).
  rewrite filter_app. simpl.
  rewrite (proj2 (has_id_spec plugin_id p) Hid). simpl.
  rewrite app_nil_r. f_equal. apply filter_all.
  intros q Hq. rewrite (filter_nil_inv _ db q Hno Hq). reflexivity.
Qed.

(** X16: a delete of the identifier a create has just answered is answered
    200 and gives back the collection as it was before the create. *)
Theorem create_then_delete (identity : string) (uuid4 : UUID)
    (args : multidict) (body : dict) (db : store) :
  (forall stored, In stored db -> triple_of stored <> requested_triple body) ->
  objects_by_id uuid4 db = [] ->
  PluginAPI_delete uuid4 (snd (PluginsAPI_post identity uuid4 args body db))
  = (Ok (PStr "", 200), db).
Proof.
  intros Hnew Hfresh.
  destruct (post_success identity uuid4 args body db Hnew)
    as [plugin [Hpost [Hid _]]].
  rewrite Hpost, (save_new plugin uuid4 db Hid Hfresh). cbn [snd].
  apply delete_new; assumption.
Qed.

Lemma create_then_delete_witness :
  PluginAPI_delete (mkUUID 2)
    (snd (PluginsAPI_post "srv" (mkUUID 2) [] other_body [essentials]))
  = (Ok (PStr "", 200), [essentials]).
Proof.
  apply (create_then_delete "srv" (mkUUID 2) [] other_body [essentials]).
  - intros stored [<-|[]]. discriminate.
  - reflexivity.
Defined.

(** X17: the plugin a create has stored is the one and only plugin found
    under the identifier the create answered, so [PluginAPI.get] on that
    identifier answers 200 and an append on it is accepted. *)
Theorem create_then_find (identity : string) (uuid4 : UUID)
    (args : multidict) (body : dict) (db : store) :
  (forall stored, In stored db -> triple_of stored <> requested_triple body) ->
  objects_by_id uuid4 db = [] ->
  exists plugin,
    objects_by_id uuid4 (snd (PluginsAPI_post identity uuid4 args body db))
    = [plugin]
    /\ triple_of plugin = requested_triple body
    /\ http_status
         (PluginAPI_get uuid4
            (snd (PluginsAPI_post identity uuid4 args body db))) = 200
    /\ forall caller update_body,
         http_status
           (fst (UpdatesAPI_post caller uuid4 update_body
                   (snd (PluginsAPI_post identity uuid4 args body db))))
         = 200.
Proof.
  intros Hnew Hfresh.
  destruct (post_success identity uuid4 args body db Hnew)
    as [plugin [Hpost [Hid [Htriple _]]]].
  exists plugin. rewrite Hpost, (save_new plugin uuid4 db Hid Hfresh).
  cbn [snd].
  pose proof (objects_by_id_new uuid4 plugin db Hid Hfresh) as Hone.
  split; [exact Hone|]. split; [exact Htriple|]. split.
  - unfold PluginAPI_get. rewrite Hone. reflexivity.
  - intros caller update_body. unfold UpdatesAPI_post. rewrite Hone.
    reflexivity.
Qed.

Lemma create_then_find_witness :
  http_status
    (PluginAPI_get (mkUUID 2)
       (snd (PluginsAPI_post "srv" (mkUUID 2) [] other_body [essentials])))
  = 200.
Proof.
  destruct (create_then_find "srv" (mkUUID 2) [] other_body [essentials])
    as [plugin [_ [_ [Hget _]]]].
  - intros stored [<-|[]]. discriminate.
  - reflexivity.
  - exact Hget.
Defined.

Lemma map_unmatched (plugin_id : UUID) (change : Plugin -> Plugin)
    (db : store) :
  objects_by_id plugin_id db = [] ->
  map (fun p => if has_id plugin_id p then change p else p) db = db.
Proof.
  intros Hno. rewrite <- (map_id db) at 2. apply map_ext_in.
  intros q Hq. rewrite (filter_nil_inv _ db q Hno Hq). reflexivity.
Qed.

(** X18: [PluginAPI.put] answers 200 only for a body the document mapper
    takes on an identifier that a plugin has, and then the change is made to
    the plugins of that identifier and to no other; a body the mapper takes
    on an unknown identifier is answered 404; a body the mapper rejects with
    [ValueError] is answered 404 with the collection untouched even when the
    plugin exists; and any other exception of the mapper leaves the handler
    uncaught, status 500, with the collection untouched. *)
Theorem put_answers (update_of : dict -> exn + (Plugin -> Plugin))
    (plugin_id : UUID) (body : dict) (db : store) :
  (update_of body = inl ValueError ->
   PluginAPI_put update_of plugin_id body db = (Ok (not_found, 404), db))
  /\ (forall e : exn,
        update_of body = inl e -> e <> ValueError ->
        PluginAPI_put update_of plugin_id body db = (Raise (Uncaught e), db)
        /\ http_status (fst (PluginAPI_put update_of plugin_id body db))
           = 500)
  /\ (forall change,
        update_of body = inr change -> objects_by_id plugin_id db = [] ->
        PluginAPI_put update_of plugin_id body db = (Ok (not_found, 404), db))
  /\ (forall change,
        update_of body = inr change -> objects_by_id plugin_id db <> [] ->
        PluginAPI_put update_of plugin_id body db
        = (Ok (PStr "", 200),
           map (fun p => if has_id plugin_id p then change p else p) db)).
Proof.
  unfold PluginAPI_put, queryset_update. split; [|split; [|split]].
  - intros ->. reflexivity.
  - intros e -> He. destruct e; try congruence; split; reflexivity.
  - intros change -> Hno.
    rewrite Hno, (map_unmatched plugin_id change db Hno). reflexivity.
  - intros change -> Hsome.
    destruct (objects_by_id plugin_id db) as [|p rest]; [congruence|].
    reflexivity.
Qed.

Lemma put_answers_witness :
  PluginAPI_put example_mapper (mkUUID 1) [("id", PStr "not-a-uuid")]
    [essentials]
  = (Ok (not_found, 404), [essentials])
  /\ PluginAPI_put example_mapper (mkUUID 1) [] [essentials]
     = (Raise (Uncaught OperationError), [essentials])
  /\ PluginAPI_put example_mapper (mkUUID 2) [("updates", PList [])]
       [essentials_with_update]
     = (Ok (not_found, 404), [essentials_with_update])
  /\ PluginAPI_put example_mapper (mkUUID 1) [("updates", PList [])]
       [essentials_with_update]
     = (Ok (PStr "", 200), [essentials]).
Proof.
  split; [|split; [|split]].
  - destruct (put_answers example_mapper (mkUUID 1)
                [("id", PStr "not-a-uuid")] [essentials]) as [Hmalformed _].
    apply Hmalformed. reflexivity.
  - destruct (put_answers example_mapper (mkUUID 1) [] [essentials])
      as [_ [Hother _]].
    apply (Hother OperationError); [reflexivity | discriminate].
  - destruct (put_answers example_mapper (mkUUID 2) [("updates", PList [])]
                [essentials_with_update]) as [_ [_ [Hunknown _]]].
    apply (Hunknown (fun p => set_updates p [])); reflexivity.
  - destruct (put_answers example_mapper (mkUUID 1) [("updates", PList [])]
                [essentials_with_update]) as [_ [_ [_ Hfound]]].
    apply (Hfound (fun p => set_updates p [])); [reflexivity | discriminate].
Defined.

Lemma delete_store (plugin_id : UUID) (db : store) :
  snd (PluginAPI_delete plugin_id db)
  = filter (fun p => negb (has_id plugin_id p)) db.
Proof.
  unfold PluginAPI_delete, queryset_delete.
  destruct (0 <? Z.of_nat (List.length (objects_by_id plugin_id db)));
    reflexivity.
Qed.

Lemma delete_leaves_none (plugin_id : UUID) (db : store) :
  objects_by_id plugin_id (snd (PluginAPI_delete plugin_id db)) = [].
Proof.
  rewrite delete_store. apply filter_nil. intros x Hx.
  apply filter_In in Hx. destruct Hx as [_ Hx].
  destruct (has_id plugin_id x); [discriminate | reflexivity].
Qed.

Lemma delete_unknown (plugin_id : UUID) (db : store) :
  objects_by_id plugin_id db = [] ->
  PluginAPI_delete plugin_id db = (Ok (not_found, 404), db).
Proof.
  intros Hno. unfold PluginAPI_delete, queryset_delete. rewrite Hno. simpl.
  unfold not_found. f_equal. apply filter_all.
  intros q Hq. rewrite (filter_nil_inv _ db q Hno Hq). reflexivity.
Qed.

(** X19: whatever the collection, after [PluginAPI.delete] no plugin is
    left under the identifier and the plugins of every other identifier are
    all still there; the answer is 200 exactly when a plugin had the
    identifier, and with an unknown identifier the collection is left as it
    was. *)
Theorem delete_removes_the_plugin (plugin_id : UUID) (db : store) :
  objects_by_id plugin_id (snd (PluginAPI_delete plugin_id db)) = []
  /\ (forall q, has_id plugin_id q = false ->
        (In q (snd (PluginAPI_delete plugin_id db)) <-> In q db))
  /\ (http_status (fst (PluginAPI_delete plugin_id db)) = 200
      <-> objects_by_id plugin_id db <> [])
  /\ (objects_by_id plugin_id db = [] ->
      PluginAPI_delete plugin_id db = (Ok (not_found, 404), db)).
Proof.
  split; [apply delete_leaves_none|]. split; [|split].
  - intros q Hq. rewrite delete_store, filter_In, Hq. simpl. tauto.
  - unfold PluginAPI_delete, queryset_delete.
    destruct (objects_by_id plugin_id db) as [|p rest]; simpl.
    + split; [discriminate | congruence].
    + split; [discriminate | reflexivity].
  - apply delete_unknown.
Qed.

Lemma delete_removes_the_plugin_witness :
  In essentials (snd (PluginAPI_delete (mkUUID 9) [essentials]))
  /\ PluginAPI_delete (mkUUID 9) [essentials]
     = (Ok (not_found, 404), [essentials]).
Proof.
  destruct (delete_removes_the_plugin (mkUUID 9) [essentials])
    as [_ [Hkeep [_ Hunknown]]].
  split.
  - apply (Hkeep essentials); [reflexivity | left; reflexivity].
  - apply Hunknown. reflexivity.
Defined.

(** X20: once [PluginAPI.delete] has run on an identifier, a [GET] of the
    plugin, a [GET] of its updates and a second delete are all answered 404,
    the second delete changes nothing, and an append is not accepted. *)
Theorem after_delete (identity : string) (plugin_id : UUID) (body : dict)
    (db : store) :
  http_status
    (PluginAPI_get plugin_id (snd (PluginAPI_delete plugin_id db))) = 404
  /\ http_status
       (UpdatesAPI_get plugin_id (snd (PluginAPI_delete plugin_id db))) = 404
  /\ PluginAPI_delete plugin_id (snd (PluginAPI_delete plugin_id db))
     = (Ok (not_found, 404), snd (PluginAPI_delete plugin_id db))
  /\ UpdatesAPI_post identity plugin_id body
       (snd (PluginAPI_delete plugin_id db))
     = (Raise (Uncaught DoesNotExist), snd (PluginAPI_delete plugin_id db)).
Proof.
  pose proof (delete_leaves_none plugin_id db) as Hgone.
  set (db' := snd (PluginAPI_delete plugin_id db)) in *. clearbody db'.
  split; [|split; [|split]].
  - unfold PluginAPI_get. rewrite Hgone. reflexivity.
  - unfold UpdatesAPI_get, get_or_404. rewrite Hgone. reflexivity.
  - apply delete_unknown. exact Hgone.
  - unfold UpdatesAPI_post. rewrite Hgone. reflexivity.
Qed.

Lemma set_updates_twice (p : Plugin) (a b : list PluginUpdate) :
  set_updates (set_updates p a) b = set_updates p b.
Proof. reflexivity. Qed.

Lemma append_step (identity : string) (plugin_id : UUID) (body : dict)
    (db : store) (plugin : Plugin) :
  objects_by_id plugin_id db = [plugin] ->
  snd (UpdatesAPI_post identity plugin_id body db)
  = map (fun q =>
           if has_id plugin_id q
           then set_updates plugin (updates plugin ++ [appended identity body])
           else q) db
  /\ objects_by_id plugin_id (snd (UpdatesAPI_post identity plugin_id body db))
     = [set_updates plugin (updates plugin ++ [appended identity body])].
Proof.
  intros Hone.
  assert (id plugin = Some plugin_id) as Hid.
  { apply has_id_spec.
    assert (In plugin (objects_by_id plugin_id db)) as Hin
      by (rewrite Hone; left; reflexivity).
    apply filter_In in Hin. apply Hin. }
  unfold UpdatesAPI_post. rewrite Hone. cbn [queryset_get snd].
  apply (save_replaces plugin_id plugin); [exact Hone | exact Hid].
Qed.

(** X21: after two appends on an existing plugin, the one plugin stored
    under the identifier has as its updates the former ones, then the
    update of the first append, then the update of the second, each with
    the fields of its own body and the identity of its own caller as server
    identifier; its other fields are as before. *)
Theorem append_twice (first second : string) (plugin_id : UUID)
    (body1 body2 : dict) (db : store) (plugin : Plugin) :
  queryset_get (objects_by_id plugin_id db) = Ok plugin ->
  exists (u1 u2 : PluginUpdate) (stored : Plugin),
    objects_by_id plugin_id
      (snd (UpdatesAPI_post second plugin_id body2
              (snd (UpdatesAPI_post first plugin_id body1 db))))
    = [stored]
    /\ updates stored = updates plugin ++ [u1; u2]
    /\ server_id u1 = Some first
    /\ update_fields u1 = update_fields (PluginUpdate_init body1)
    /\ server_id u2 = Some second
    /\ update_fields u2 = update_fields (PluginUpdate_init body2)
    /\ cls stored = cls plugin
    /\ id stored = Some plugin_id
    /\ name stored = name plugin
    /\ description stored = description plugin
    /\ download_url stored = download_url plugin
    /\ variant_fields stored = variant_fields plugin.
Proof.
  intros Hget. apply queryset_get_Ok in Hget.
  assert (id plugin = Some plugin_id) as Hid.
  { apply has_id_spec.
    assert (In plugin (objects_by_id plugin_id db)) as Hin
      by (rewrite Hget; left; reflexivity).
    apply filter_In in Hin. apply Hin. }
  destruct (append_step first plugin_id body1 db plugin Hget) as [_ Hone].
  destruct (append_step second plugin_id body2 _ _ Hone) as [_ Htwo].
  exists (appended first body1), (appended second body2).
  eexists. split; [exact Htwo|].
  cbn [updates set_updates cls id name description download_url
       variant_fields].
  rewrite <- app_assoc.
  repeat split. exact Hid.
Qed.

Lemma append_twice_witness :
  objects_by_id (mkUUID 1)
    (snd (UpdatesAPI_post "b" (mkUUID 1) [("version", PStr "3")]
            (snd (UpdatesAPI_post "a" (mkUUID 1) [("version", PStr "2")]
                    [{| cls := GenericPlugin; id := Some (mkUUID 1);
                        name := Some "X"; description := Some "Y";
                        download_url := Some "Z"; variant_fields := [];
                        updates := [] |}]))))
  = [{| cls := GenericPlugin; id := Some (mkUUID 1);
        name := Some "X"; description := Some "Y"; download_url := Some "Z";
        variant_fields := [];
        updates := [{| update_fields := [("version", PStr "2")];
                       server_id := Some "a" |};
                    {| update_fields := [("version", PStr "3")];
                       server_id := Some "b" |}] |}].
Proof.
  destruct (append_twice "a" "b" (mkUUID 1) [("version", PStr "2")]
              [("version", PStr "3")] [essentials] essentials eq_refl)
    as [[f1 s1] [[f2 s2] [[c i n d u v us]
         [Hfound [Hus [Hs1 [Hf1 [Hs2 [Hf2
           [Hc [Hi [Hn [Hd [Hu Hv]]]]]]]]]]]]]].
  cbn in Hus, Hs1, Hf1, Hs2, Hf2, Hc, Hi, Hn, Hd, Hu, Hv. subst.
  exact Hfound.
Defined.

Lemma filter_map_others (plugin_id : UUID) (p' : Plugin) (db : store) :
  filter (fun q => negb (has_id plugin_id q))
         (map (fun q => if has_id plugin_id q then p' else q) db)
  = filter (fun q => negb (has_id plugin_id q))
           (if has_id plugin_id p' then db
            else map (fun q => if has_id plugin_id q then p' else q) db).
Proof.
  destruct (has_id plugin_id p') eqn:Hp'; [|reflexivity].
  induction db as [|q db IH]; simpl; [reflexivity|].
  destruct (has_id plugin_id q) eqn:Hq; simpl.
  - rewrite Hp'. simpl. exact IH.
  - rewrite Hq. simpl. rewrite IH. reflexivity.
Qed.

(** X22: an append on an existing plugin changes that plugin only: the
    collection keeps its length, and the plugins of every other identifier
    are the same, in the same order. *)
Theorem append_touches_one_plugin (identity : string) (plugin_id : UUID)
    (body : dict) (db : store) (plugin : Plugin) :
  queryset_get (objects_by_id plugin_id db) = Ok plugin ->
  List.length (snd (UpdatesAPI_post identity plugin_id body db))
  = List.length db
  /\ filter (fun q => negb (has_id plugin_id q))
            (snd (UpdatesAPI_post identity plugin_id body db))
     = filter (fun q => negb (has_id plugin_id q)) db.
Proof.
  intros Hget. apply queryset_get_Ok in Hget.
  destruct (append_step identity plugin_id body db plugin Hget)
    as [Hmap Hone].
  rewrite Hmap. split; [apply length_map|].
  rewrite filter_map_others.
  assert (has_id plugin_id
            (set_updates plugin (updates plugin ++ [appended identity body]))
          = true) as ->; [|reflexivity].
  assert (In plugin (objects_by_id plugin_id db)) as Hin
    by (rewrite Hget; left; reflexivity).
  apply filter_In in Hin. apply Hin.
Qed.

Lemma append_touches_one_plugin_witness :
  List.length
    (snd (UpdatesAPI_post "a" (mkUUID 1) [("version", PStr "2")]
            [essentials; set_id essentials (mkUUID 5)]))
  = 2%nat.
Proof.
  apply (append_touches_one_plugin "a" (mkUUID 1) [("version", PStr "2")]
           [essentials; set_id essentials (mkUUID 5)] essentials).
  reflexivity.
Defined.
